(** * gmaps.polyline: coordinate validation and bounding box of the Polyline widget

    A shallow embedding of [src/gmaps/polyline.py].  Coordinates are Python
    floats, that is IEEE 754 binary64 values; they are modelled by the
    Standard Library's [spec_float] with the comparison [SFcompare], so NaN,
    the infinities and the two zeros are all present.  The [traitlets]
    machinery the class relies on (type validation, cross validation,
    commit, change notification) is modelled as a small state-and-exception
    monad over the record of trait values. *)

From Stdlib Require Import ZArith List String Bool Lia Permutation.
From Stdlib Require Import Floats.SpecFloat.
Import ListNotations.

Local Open Scope Z_scope.

(** ** Python floats *)

Module PyFloat.

Definition prec : Z := 53.
Definition emax : Z := 1024.

Definition float := spec_float.

(** [float(z)] for an integer that fits: the nearest double, ties to even. *)
Definition of_Z (z : Z) : float := binary_normalize prec emax z 0 false.

(** The double denoted by a decimal literal [m / 10^k]: the correctly
    rounded quotient of two exactly representable integers. *)
Definition decimal (m : Z) (k : nat) : float :=
  SFdiv prec emax (of_Z m) (of_Z (10 ^ Z.of_nat k)).

(** Python's [<], [<=], [==] on floats. *)
Definition ltb (x y : float) : bool := SFltb x y.
Definition leb (x y : float) : bool := SFleb x y.
Definition eqb (x y : float) : bool := SFeqb x y.

Definition is_nan (x : float) : bool :=
  match x with S754_nan => true | _ => false end.

Definition is_zero (x : float) : bool :=
  match x with S754_zero _ => true | _ => false end.

Definition is_inf (x : float) : bool :=
  match x with S754_infinity _ => true | _ => false end.

(** A key that orders the floats that are not NaN: class, then exponent,
    then mantissa, the last two negated for negative numbers. *)
Definition key (x : float) : option (Z * Z * Z) :=
  match x with
  | S754_nan => None
  | S754_infinity true => Some (-2, 0, 0)
  | S754_infinity false => Some (2, 0, 0)
  | S754_zero _ => Some (0, 0, 0)
  | S754_finite true m e => Some (-1, - e, Z.neg m)
  | S754_finite false m e => Some (1, e, Z.pos m)
  end.

Definition lex_compare (a b : Z * Z * Z) : comparison :=
  let '(a1, a2, a3) := a in
  let '(b1, b2, b3) := b in
  match a1 ?= b1 with
  | Eq => match a2 ?= b2 with Eq => a3 ?= b3 | c => c end
  | c => c
  end.

Definition lex_le (a b : Z * Z * Z) : Prop :=
  let '(a1, a2, a3) := a in
  let '(b1, b2, b3) := b in
  a1 < b1 \/ (a1 = b1 /\ (a2 < b2 \/ (a2 = b2 /\ a3 <= b3))).

Definition lex_lt (a b : Z * Z * Z) : Prop :=
  let '(a1, a2, a3) := a in
  let '(b1, b2, b3) := b in
  a1 < b1 \/ (a1 = b1 /\ (a2 < b2 \/ (a2 = b2 /\ a3 < b3))).

(** Order relations as propositions. *)
Definition le (x y : float) : Prop := leb x y = true.
Definition lt (x y : float) : Prop := ltb x y = true.
Definition feq (x y : float) : Prop := eqb x y = true.
Definition number (x : float) : Prop := is_nan x = false.

End PyFloat.

Import PyFloat.


(** ** Python values and exceptions *)

(** A number passed where a float is expected: an [int] or a [float]. *)
Inductive pynum :=
| PyInt (z : Z)
| PyFloat (f : float).

(** One element of [data]: the dict [{'lat': ..., 'lng': ...}]. *)
Record LatLng := mkLatLng { lat : float; lng : float }.

Inductive exn :=
| TraitError
| InvalidPointException (point : LatLng)
| ValueError
| OverflowError.

Definition result (A : Type) : Type := exn + A.

(** [float(z)]: correctly rounded, [OverflowError] past the largest double. *)
Definition float_of_int (z : Z) : result float :=
  let f := of_Z z in
  if is_inf f then inl OverflowError else inr f.

(** The built-ins [min] and [max] over an iterable of floats: the first item
    is the candidate, and a later item replaces it when it compares [<]
    (for [max]: [>]) with it; [ValueError] on an empty iterable. *)
Fixpoint min_loop (cur : float) (items : list float) : float :=
  match items with
  | [] => cur
  | item :: rest => min_loop (if ltb item cur then item else cur) rest
  end.

Definition py_min (items : list float) : result float :=
  match items with
  | [] => inl ValueError
  | first :: rest => inr (min_loop first rest)
  end.

Fixpoint max_loop (cur : float) (items : list float) : float :=
  match items with
  | [] => cur
  | item :: rest => max_loop (if ltb cur item then item else cur) rest
  end.

Definition py_max (items : list float) : result float :=
  match items with
  | [] => inl ValueError
  | first :: rest => inr (max_loop first rest)
  end.

(** [==] on dicts with the keys [lat] and [lng], on tuples and on lists. *)
Definition LatLng_eqb (p q : LatLng) : bool :=
  eqb (lat p) (lat q) && eqb (lng p) (lng q).

Definition pair_eqb (p q : float * float) : bool :=
  eqb (fst p) (fst q) && eqb (snd p) (snd q).

Fixpoint list_eqb {A} (e : A -> A -> bool) (l1 l2 : list A) : bool :=
  match l1, l2 with
  | [], [] => true
  | x :: r1, y :: r2 => e x y && list_eqb e r1 r2
  | _, _ => false
  end.

(** ** The collaborators of the module: [geotraitlets] and [locations] *)

(** Modelled from the spec: [geotraitlets.is_valid_point], which is not
    under src/.  The spec's contract for it is the check
    [-90 <= lat <= 90] and [-180 <= lng <= 180] on a (lat, lng) pair. *)
Definition is_valid_point (pt : float * float) : bool :=
  let '(latitude, longitude) := pt in
  leb (of_Z (-90)) latitude && leb latitude (of_Z 90)
  && leb (of_Z (-180)) longitude && leb longitude (of_Z 180).

(** Modelled from the spec: [geotraitlets.ColorAlpha], which is not under
    src/.  The spec gives the color no invariant (a color string, packaged
    verbatim), so every string is accepted as it is. *)
Definition ColorAlpha_validate (value : string) : result string := inr value.

(** Modelled from the spec: [locations.locations_to_latlng], which is not
    under src/.  It normalizes an iterable of (lat, lng) pairs into the
    ordered sequence of {lat, lng} records, order kept. *)
Definition locations_to_latlng (points : list (float * float)) : list LatLng :=
  map (fun pt => mkLatLng (fst pt) (snd pt)) points.

(** ** The widget's trait values and the monad of its methods *)

Record Polyline := mkPolyline {
  geodesic : bool;
  stroke_color : string;
  stroke_opacity : float;
  stroke_weight : float;
  data : list LatLng;
  data_bounds : list (float * float)
}.

(** A method runs on the trait values and either returns or raises; the
    trait values it leaves are those at the point of the [raise]. *)
Definition M (A : Type) : Type := Polyline -> Polyline * result A.

Definition ret {A} (a : A) : M A := fun s => (s, inr a).
Definition bind {A B} (m : M A) (k : A -> M B) : M B :=
  fun s =>
    match m s with
    | (s', inr a) => k a s'
    | (s', inl e) => (s', inl e)
    end.
Definition lift {A} (r : result A) : M A := fun s => (s, r).
Definition gets {A} (f : Polyline -> A) : M A := fun s => (s, inr (f s)).
Definition modify (f : Polyline -> Polyline) : M unit := fun s => (f s, inr tt).

Notation "x <- m ;; k" := (bind m (fun x => k))
  (at level 61, m at next level, right associativity).
Notation "m ;;; k" := (bind m (fun _ => k))
  (at level 61, right associativity).

(** ** traitlets *)

(** A trait descriptor: the type check of the trait class ([validate],
    with its coercion from the assigned value), the [@validate] handler,
    the slot among the trait values, [==] on its values, and the
    [@observe] handler, which receives [change["new"]]. *)
Record TraitType (I A : Type) := mkTrait {
  validate : I -> result A;
  cross_validate : A -> M A;
  trait_get : Polyline -> A;
  trait_put : A -> Polyline -> Polyline;
  trait_eqb : A -> A -> bool;
  observer : A -> M unit
}.
Arguments validate {I A}.
Arguments cross_validate {I A}.
Arguments trait_get {I A}.
Arguments trait_put {I A}.
Arguments trait_eqb {I A}.
Arguments observer {I A}.

(** [TraitType.set], what [obj.name = value] runs: validate, cross
    validate, store, and notify the observers unless the old value [==]
    the new one. *)
Definition set {I A} (t : TraitType I A) (value : I) : M unit :=
  new_value <- lift (validate t value) ;;
  new_value <- cross_validate t new_value ;;
  old_value <- gets (trait_get t) ;;
  modify (trait_put t new_value) ;;;
  if trait_eqb t old_value new_value then ret tt
  else observer t new_value.

(** Inside [hold_trait_notifications], as [HasTraits.__init__] runs the
    keyword arguments: the type check and the store happen at once, cross
    validation and notification are deferred.  Returns whether a change
    was recorded. *)
Definition set_held {I A} (t : TraitType I A) (value : I) : M bool :=
  new_value <- lift (validate t value) ;;
  old_value <- gets (trait_get t) ;;
  modify (trait_put t new_value) ;;;
  ret (negb (trait_eqb t old_value new_value)).

Definition set_held_opt {I A} (t : TraitType I A) (value : option I) : M bool :=
  match value with
  | Some v => set_held t v
  | None => ret false
  end.

(** On leaving the context: the final value of a changed trait is cross
    validated and stored again (an equal value, so no new notification). *)
Definition release {I A} (t : TraitType I A) (changed : bool) : M unit :=
  if changed then
    value <- gets (trait_get t) ;;
    value <- cross_validate t value ;;
    modify (trait_put t value)
  else ret tt.

(** Then the held notifications are delivered. *)
Definition deliver {I A} (t : TraitType I A) (changed : bool) : M unit :=
  if changed then
    value <- gets (trait_get t) ;;
    observer t value
  else ret tt.

(** [List(minlen=n)]: the length check of [Container.validate_elements]. *)
Definition List_validate {A} (minlen : nat) (value : list A) : result (list A) :=
  if (List.length value <? minlen)%nat then inl TraitError else inr value.

(** [Float(min=lo, max=hi)]: an [int] is converted, then the bounds. *)
Definition Float_validate (lo hi : float) (value : pynum) : result float :=
  match match value with
        | PyInt z => float_of_int z
        | PyFloat f => inr f
        end with
  | inl e => inl e
  | inr v =>
      if ltb v lo then inl TraitError
      else if ltb hi v then inl TraitError
      else inr v
  end.

(** ** class Polyline *)

Definition no_cross_validate {A} (value : A) : M A := ret value.
Definition no_observer {A} (value : A) : M unit := ret tt.

(** [geodesic = Bool(default_value=True)] *)
Definition geodesic_trait : TraitType bool bool :=
  mkTrait _ _ (fun v => inr v) no_cross_validate geodesic
    (fun v s => mkPolyline v (stroke_color s) (stroke_opacity s)
                  (stroke_weight s) (data s) (data_bounds s))
    Bool.eqb no_observer.

(** [stroke_color = geotraitlets.ColorAlpha(default_value="#FF0000")] *)
Definition stroke_color_trait : TraitType string string :=
  mkTrait _ _ ColorAlpha_validate no_cross_validate stroke_color
    (fun v s => mkPolyline (geodesic s) v (stroke_opacity s)
                  (stroke_weight s) (data s) (data_bounds s))
    String.eqb no_observer.

(** [stroke_opacity = Float(default_value=1.0, min=0.0, max=1.0)] *)
Definition stroke_opacity_trait : TraitType pynum float :=
  mkTrait _ _ (Float_validate (of_Z 0) (of_Z 1)) no_cross_validate
    stroke_opacity
    (fun v s => mkPolyline (geodesic s) (stroke_color s) v
                  (stroke_weight s) (data s) (data_bounds s))
    eqb no_observer.

(** [stroke_weight = Float(default_value=2, min=1.0, max=5.0)] *)
Definition stroke_weight_trait : TraitType pynum float :=
  mkTrait _ _ (Float_validate (of_Z 1) (of_Z 5)) no_cross_validate
    stroke_weight
    (fun v s => mkPolyline (geodesic s) (stroke_color s) (stroke_opacity s)
                  v (data s) (data_bounds s))
    eqb no_observer.

(** [data_bounds = List()] *)
Definition data_bounds_trait : TraitType (list (float * float)) (list (float * float)) :=
  mkTrait _ _ (List_validate 0) no_cross_validate data_bounds
    (fun v s => mkPolyline (geodesic s) (stroke_color s) (stroke_opacity s)
                  (stroke_weight s) (data s) v)
    (list_eqb pair_eqb) no_observer.

(** The loop of [_validate_data]: the first point that is not valid raises. *)
Fixpoint validate_points (value : list LatLng) : result unit :=
  match value with
  | [] => inr tt
  | point :: rest =>
      if negb (is_valid_point (lat point, lng point))
      then inl (InvalidPointException point)
      else validate_points rest
  end.

(** [@validate("data") def _validate_data(self, proposal)] *)
Definition _validate_data (value : list LatLng) : M (list LatLng) :=
  lift (validate_points value) ;;;
  ret value.

(** [@observe("data") def _calc_bounds(self, change)], on [change["new"]]. *)
Definition _calc_bounds (new : list LatLng) : M unit :=
  min_latitude <- lift (py_min (map lat new)) ;;
  min_longitude <- lift (py_min (map lng new)) ;;
  max_latitude <- lift (py_max (map lat new)) ;;
  max_longitude <- lift (py_max (map lng new)) ;;
  set data_bounds_trait
    [(min_latitude, min_longitude); (max_latitude, max_longitude)].

(** [data = List(minlen=2)] with its two handlers. *)
Definition data_trait : TraitType (list LatLng) (list LatLng) :=
  mkTrait _ _ (List_validate 2) _validate_data data
    (fun v s => mkPolyline (geodesic s) (stroke_color s) (stroke_opacity s)
                  (stroke_weight s) v (data_bounds s))
    (list_eqb LatLng_eqb) _calc_bounds.

(** The declared defaults; a container trait defaults to the empty list. *)
Definition defaults : Polyline :=
  mkPolyline true "#FF0000" (decimal 10 1) (of_Z 2) [] [].

(** The keyword arguments of [Polyline(...)], in the order in which
    [_polyline_options] lists them. *)
Record Kwargs := mkKwargs {
  kw_data : option (list LatLng);
  kw_geodesic : option bool;
  kw_stroke_color : option string;
  kw_stroke_opacity : option pynum;
  kw_stroke_weight : option pynum
}.

(** [HasTraits.__init__] on the keyword arguments: every argument is assigned while the
    notifications are held, then cross validation, then the observers. *)
Definition HasTraits_init (kw : Kwargs) : M unit :=
  c_data <- set_held_opt data_trait (kw_data kw) ;;
  c_geodesic <- set_held_opt geodesic_trait (kw_geodesic kw) ;;
  c_color <- set_held_opt stroke_color_trait (kw_stroke_color kw) ;;
  c_opacity <- set_held_opt stroke_opacity_trait (kw_stroke_opacity kw) ;;
  c_weight <- set_held_opt stroke_weight_trait (kw_stroke_weight kw) ;;
  release data_trait c_data ;;;
  release geodesic_trait c_geodesic ;;;
  release stroke_color_trait c_color ;;;
  release stroke_opacity_trait c_opacity ;;;
  release stroke_weight_trait c_weight ;;;
  deliver data_trait c_data ;;;
  deliver geodesic_trait c_geodesic ;;;
  deliver stroke_color_trait c_color ;;;
  deliver stroke_opacity_trait c_opacity ;;;
  deliver stroke_weight_trait c_weight.

(** [Polyline] called on the keyword arguments: the new widget, or the exception and no widget. *)
Definition Polyline_new (kw : Kwargs) : result Polyline :=
  match HasTraits_init kw defaults with
  | (s, inr _) => inr s
  | (_, inl e) => inl e
  end.

(** [_polyline_options(points, geodesic, stroke_color, stroke_opacity,
    stroke_weight)] *)
Definition _polyline_options (points : list (float * float)) (geodesic : bool)
    (stroke_color : string) (stroke_opacity stroke_weight : pynum) : Kwargs :=
  let data := locations_to_latlng points in
  mkKwargs (Some data) (Some geodesic) (Some stroke_color)
    (Some stroke_opacity) (Some stroke_weight).

(** [polyline_layer(points, geodesic=True, stroke_color="#FF0000",
    stroke_opacity=1.0, stroke_weight=2)]; an argument left out is [None]
    here and takes the default of the signature. *)
Definition polyline_layer (points : list (float * float))
    (geodesic : option bool) (stroke_color : option string)
    (stroke_opacity stroke_weight : option pynum) : result Polyline :=
  let geodesic := match geodesic with Some v => v | None => true end in
  let stroke_color :=
    match stroke_color with Some v => v | None => "#FF0000"%string end in
  let stroke_opacity :=
    match stroke_opacity with Some v => v | None => PyFloat (decimal 10 1) end in
  let stroke_weight :=
    match stroke_weight with Some v => v | None => PyInt 2 end in
  let widget_args :=
    _polyline_options points geodesic stroke_color stroke_opacity stroke_weight in
  Polyline_new widget_args.

(** Assignments to the attributes of an existing widget. *)
Definition set_data (value : list LatLng) : M unit := set data_trait value.
Definition set_geodesic (value : bool) : M unit := set geodesic_trait value.
Definition set_stroke_color (value : string) : M unit :=
  set stroke_color_trait value.
Definition set_stroke_opacity (value : pynum) : M unit :=
  set stroke_opacity_trait value.
Definition set_stroke_weight (value : pynum) : M unit :=
  set stroke_weight_trait value.

(** The widgets a program can hold when it touches [data_bounds] only
    through the observer: built by the constructor, then any assignments
    to the other attributes, failed ones included. *)
Inductive reachable : Polyline -> Prop :=
| reach_new kw s :
    Polyline_new kw = inr s -> reachable s
| reach_data value s :
    reachable s -> reachable (fst (set_data value s))
| reach_geodesic value s :
    reachable s -> reachable (fst (set_geodesic value s))
| reach_stroke_color value s :
    reachable s -> reachable (fst (set_stroke_color value s))
| reach_stroke_opacity value s :
    reachable s -> reachable (fst (set_stroke_opacity value s))
| reach_stroke_weight value s :
    reachable s -> reachable (fst (set_stroke_weight value s)).

(** ** Specification vocabulary *)

(** A coordinate pair within the ranges of the data model. *)
Definition in_range (p : LatLng) : Prop :=
  le (of_Z (-90)) (lat p) /\ le (lat p) (of_Z 90) /\
  le (of_Z (-180)) (lng p) /\ le (lng p) (of_Z 180).

(** A valid PointSequence: at least two points, all in range. *)
Definition valid_sequence (P : list LatLng) : Prop :=
  (2 <= List.length P)%nat /\ Forall in_range P.

(** [m] is the minimum (maximum) of [l]: a member of [l] below (above)
    every member. *)
Definition minimum (l : list float) (m : float) : Prop :=
  In m l /\ Forall (fun x => le m x) l.

Definition maximum (l : list float) (m : float) : Prop :=
  In m l /\ Forall (fun x => le x m) l.

(** The same up to Python's [==], which does not tell [0.0] from [-0.0]. *)
Definition minimum_eq (l : list float) (m : float) : Prop :=
  (exists x, In x l /\ feq x m) /\ Forall (fun x => le m x) l.

Definition maximum_eq (l : list float) (m : float) : Prop :=
  (exists x, In x l /\ feq x m) /\ Forall (fun x => le x m) l.

(** [b] is the bounding box of [P]: the list of the corner of the two
    minima and the corner of the two maxima, each axis on its own. *)
Definition bounding_box (P : list LatLng) (b : list (float * float)) : Prop :=
  exists min_lat min_lng max_lat max_lng,
    b = [(min_lat, min_lng); (max_lat, max_lng)] /\
    minimum_eq (map lat P) min_lat /\ minimum_eq (map lng P) min_lng /\
    maximum_eq (map lat P) max_lat /\ maximum_eq (map lng P) max_lng.

(** Python's [==] on two values of [data_bounds]. *)
Definition bounds_eq (b b' : list (float * float)) : Prop :=
  list_eqb pair_eqb b b' = true.

(** The keyword arguments of [Polyline(data=P)]. *)
Definition data_only (P : list LatLng) : Kwargs :=
  mkKwargs (Some P) None None None None.

(** The value [_calc_bounds] stores for the sequence [p :: rest]. *)
Definition box (p : LatLng) (rest : list LatLng) : list (float * float) :=
  [(min_loop (lat p) (map lat rest), min_loop (lng p) (map lng rest));
   (max_loop (lat p) (map lat rest), max_loop (lng p) (map lng rest))].

(** ** Auxiliary definitions of the proofs *)

Definition put_data (v : list LatLng) (s : Polyline) : Polyline :=
  trait_put data_trait v s.

Definition put_data_bounds (b : list (float * float)) (s : Polyline) : Polyline :=
  trait_put data_bounds_trait b s.

Definition style_trait {I A} (t : TraitType I A) : Prop :=
  cross_validate t = no_cross_validate /\
  observer t = no_observer /\
  forall v s, data (trait_put t v s) = data s /\
              data_bounds (trait_put t v s) = data_bounds s.

Definition keeps_data {A} (m : M A) : Prop :=
  forall s, data (fst (m s)) = data s /\
            data_bounds (fst (m s)) = data_bounds s.

(** The committed sequence has only points in range and, unless it is still
    the empty default, [data_bounds] is its bounding box. *)
Definition consistent (s : Polyline) : Prop :=
  Forall in_range (data s) /\
  (data s = [] \/ bounding_box (data s) (data_bounds s)).

(** A coordinate pair strictly outside one of the two ranges. *)
Definition out_of_range (p : LatLng) : Prop :=
  lt (of_Z 90) (lat p) \/ lt (lat p) (of_Z (-90)) \/
  lt (of_Z 180) (lng p) \/ lt (lng p) (of_Z (-180)).

(** A coordinate pair whose latitude is 90, -90 or strictly between them
    and whose longitude is 180, -180 or strictly between them. *)
Definition boundary_or_inside (p : LatLng) : Prop :=
  (lat p = of_Z 90 \/ lat p = of_Z (-90) \/
   (lt (of_Z (-90)) (lat p) /\ lt (lat p) (of_Z 90))) /\
  (lng p = of_Z 180 \/ lng p = of_Z (-180) \/
   (lt (of_Z (-180)) (lng p) /\ lt (lng p) (of_Z 180))).

(** A float strictly outside, or inside, the declared range of a trait. *)
Definition outside (lo hi v : float) : Prop := lt v lo \/ lt hi v.
Definition inside (lo hi v : float) : Prop := le lo v /\ le v hi.

(** ** Example values *)

(** The points of the class docstring, [(48.85341, 2.3488)],
    [(50.85045, 4.34878)] and [(52.37403, 4.88969)]. *)
Definition paris : float * float := (decimal 4885341 5, decimal 23488 4).
Definition brussels : float * float := (decimal 5085045 5, decimal 434878 5).
Definition amsterdam : float * float := (decimal 5237403 5, decimal 488969 5).

(** The points of the docstring of [polyline_layer]. *)
Definition swiss_points : list (float * float) :=
  [(decimal 464 1, decimal 69 1); (decimal 469 1, decimal 80 1)].

(** The four boundary values meet in these two corners. *)
Definition corners : list LatLng :=
  [mkLatLng (of_Z 90) (of_Z 180); mkLatLng (of_Z (-90)) (of_Z (-180))].

(** The docstring's points as [data], and the widget constructed from
    them. *)
Definition capitals : list LatLng :=
  locations_to_latlng [paris; brussels; amsterdam].

Definition example_widget : Polyline :=
  Eval vm_compute in
    match Polyline_new (data_only capitals) with
    | inr s => s
    | inl _ => defaults
    end.

(** ** Further definitions: the rest of the widget's interface *)

(** [obj.data_bounds = value]: the trait is declared like any other and can
    be assigned from outside. *)
Definition set_data_bounds (value : list (float * float)) : M unit :=
  set data_bounds_trait value.

(** The four style attributes of [s'] are those of [s]. *)
Definition same_style (s s' : Polyline) : Prop :=
  geodesic s' = geodesic s /\ stroke_color s' = stroke_color s /\
  stroke_opacity s' = stroke_opacity s /\ stroke_weight s' = stroke_weight s.

(** The class invariant: no sequence was ever committed and both lists are
    the empty defaults, or the committed sequence is a valid PointSequence
    and [data_bounds] is its bounding box. *)
Definition invariant (s : Polyline) : Prop :=
  (data s = [] /\ data_bounds s = []) \/
  (valid_sequence (data s) /\ bounding_box (data s) (data_bounds s)).

(** The first corner of [b'] is below that of [b] and its second corner
    above: the box [b'] contains the box [b]. *)
Definition box_contains (b' b : list (float * float)) : Prop :=
  exists a1 a2 c1 c2 a1' a2' c1' c2',
    b = [(a1, a2); (c1, c2)] /\ b' = [(a1', a2'); (c1', c2')] /\
    le a1' a1 /\ le a2' a2 /\ le c1 c1' /\ le c2 c2'.

(** ** Facts on the order of floats *)

Module PyFloatFacts.

Lemma SFcompare_key x y :
  SFcompare x y =
  match key x, key y with
  | Some a, Some b => Some (lex_compare a b)
  | _, _ => None
  end.
Proof.
  destruct x as [[|]|[|]| |[|] m e], y as [[|]|[|]| |[|] m' e'];
    try reflexivity; simpl.
  rewrite Z.compare_opp, (Z.compare_antisym e' e).
  destruct (e' ?= e); reflexivity.
Qed.

Lemma lex_compare_le a b :
  lex_le a b <-> lex_compare a b <> Gt.
Proof.
  destruct a as [[a1 a2] a3], b as [[b1 b2] b3]; simpl.
  destruct (Z.compare_spec a1 b1), (Z.compare_spec a2 b2),
    (Z.compare_spec a3 b3); split; intros; try lia; try discriminate;
    try congruence.
Qed.

Lemma lex_compare_lt a b :
  lex_lt a b <-> lex_compare a b = Lt.
Proof.
  destruct a as [[a1 a2] a3], b as [[b1 b2] b3]; simpl.
  destruct (Z.compare_spec a1 b1), (Z.compare_spec a2 b2),
    (Z.compare_spec a3 b3); split; intros; try lia; try discriminate;
    try congruence.
Qed.

Lemma lex_compare_eq a b :
  a = b <-> lex_compare a b = Eq.
Proof.
  destruct a as [[a1 a2] a3], b as [[b1 b2] b3]; simpl.
  destruct (Z.compare_spec a1 b1), (Z.compare_spec a2 b2),
    (Z.compare_spec a3 b3); split; intros H'; try discriminate;
    try (injection H'; lia); subst; reflexivity.
Qed.

Lemma le_key x y :
  le x y <-> exists a b, key x = Some a /\ key y = Some b /\ lex_le a b.
Proof.
  unfold le, leb, SFleb. rewrite SFcompare_key.
  destruct (key x) as [a|], (key y) as [b|]; split;
    try discriminate; try (intros (? & ? & ? & ? & ?); discriminate).
  - intros H. exists a, b. repeat split. apply lex_compare_le.
    destruct (lex_compare a b); congruence.
  - intros (a' & b' & Ha & Hb & H). injection Ha as <-. injection Hb as <-.
    apply lex_compare_le in H. destruct (lex_compare a b); congruence.
Qed.

Lemma lt_key x y :
  lt x y <-> exists a b, key x = Some a /\ key y = Some b /\ lex_lt a b.
Proof.
  unfold lt, ltb, SFltb. rewrite SFcompare_key.
  destruct (key x) as [a|], (key y) as [b|]; split;
    try discriminate; try (intros (? & ? & ? & ? & ?); discriminate).
  - intros H. exists a, b. repeat split. apply lex_compare_lt.
    destruct (lex_compare a b); congruence.
  - intros (a' & b' & Ha & Hb & H). injection Ha as <-. injection Hb as <-.
    apply lex_compare_lt in H. now rewrite H.
Qed.

Lemma feq_key x y :
  feq x y <-> exists a, key x = Some a /\ key y = Some a.
Proof.
  unfold feq, eqb, SFeqb. rewrite SFcompare_key.
  destruct (key x) as [a|], (key y) as [b|]; split;
    try discriminate; try (intros (? & ? & ?); discriminate).
  - intros H. exists a. split; [reflexivity|]. f_equal. symmetry.
    apply lex_compare_eq. destruct (lex_compare a b); congruence.
  - intros (a' & Ha & Hb). injection Ha as <-. injection Hb as ->.
    now rewrite (proj1 (lex_compare_eq a a) eq_refl).
Qed.

Lemma number_key x : number x <-> exists a, key x = Some a.
Proof.
  unfold number.
  destruct x as [[|]|[|]| |[|] m e]; simpl; split; intros H;
    try reflexivity; try discriminate; try (eexists; reflexivity).
  destruct H; discriminate.
Qed.

(** Turn every order fact in the context into a fact on keys. *)
Ltac to_keys :=
  repeat match goal with
    | H : le _ _ |- _ => apply le_key in H; destruct H as (? & ? & ? & ? & H)
    | H : lt _ _ |- _ => apply lt_key in H; destruct H as (? & ? & ? & ? & H)
    | H : feq _ _ |- _ => apply feq_key in H; destruct H as (? & ? & H)
    | H : number _ |- _ => apply number_key in H; destruct H as (? & H)
    end;
  repeat match goal with
    | H : key ?x = Some ?a, H' : key ?x = Some ?b |- _ =>
        rewrite H in H'; injection H' as <-
    end.

Ltac lex_lia :=
  repeat match goal with
    | a : (Z * Z * Z)%type |- _ => destruct a as [[? ?] ?]
    end;
  unfold lex_le, lex_lt in *; lia.

Lemma le_refl x : number x -> le x x.
Proof. intros. to_keys. apply le_key. do 2 eexists. repeat split; eauto. lex_lia. Qed.

Lemma le_trans x y z : le x y -> le y z -> le x z.
Proof. intros. to_keys. apply le_key. do 2 eexists. repeat split; eauto. lex_lia. Qed.

Lemma le_number_l x y : le x y -> number x.
Proof. intros. to_keys. apply number_key. eauto. Qed.

Lemma le_number_r x y : le x y -> number y.
Proof. intros. to_keys. apply number_key. eauto. Qed.

Lemma lt_le x y : lt x y -> le x y.
Proof. intros. to_keys. apply le_key. do 2 eexists. repeat split; eauto. lex_lia. Qed.

Lemma le_antisym x y : le x y -> le y x -> feq x y.
Proof.
  intros. to_keys. apply feq_key.
  match goal with H : key y = Some ?b |- _ => exists b; split; [|exact H] end.
  match goal with H : key x = Some ?a |- _ => rewrite H; f_equal end.
  repeat match goal with
    | a : (Z * Z * Z)%type |- _ => destruct a as [[? ?] ?]
    end.
  unfold lex_le in *. repeat f_equal; lia.
Qed.

Lemma feq_le x y : feq x y -> le x y.
Proof. intros. to_keys. apply le_key. do 2 eexists. repeat split; eauto. lex_lia. Qed.

Lemma feq_sym x y : feq x y -> feq y x.
Proof. intros. to_keys. apply feq_key. eauto. Qed.

Lemma feq_refl x : number x -> feq x x.
Proof. intros. to_keys. apply feq_key. eauto. Qed.

Lemma feq_trans x y z : feq x y -> feq y z -> feq x z.
Proof. intros. to_keys. apply feq_key. eauto. Qed.

(** [x < y] is false on two numbers exactly when [y <= x]. *)
Lemma ltb_false_le x y : number x -> number y -> ltb x y = false -> le y x.
Proof.
  intros Hx Hy H. to_keys. apply le_key. do 2 eexists. repeat split; eauto.
  match goal with
  | Hx : key x = Some ?a, Hy : key y = Some ?b |- _ =>
      assert (N : ~ lex_lt a b)
  end.
  { intros L. enough (ltb x y = true) by congruence.
    apply lt_key. do 2 eexists. repeat split; eauto. }
  lex_lia.
Qed.

Lemma lt_leb_false x y : lt x y -> leb y x = false.
Proof.
  intros H. destruct (leb y x) eqn:E; [|reflexivity].
  change (le y x) in E. to_keys. exfalso. lex_lia.
Qed.

(** Python's [==] on floats separates everything but the two zeros. *)
Lemma feq_inv x y :
  feq x y -> x = y \/ (is_zero x = true /\ is_zero y = true).
Proof.
  intros H. apply feq_key in H as (a & Hx & Hy).
  rewrite <- Hy in Hx. clear Hy a.
  destruct x as [[|]|[|]| |[|] m e], y as [[|]|[|]| |[|] m' e'];
    simpl in Hx; try discriminate; auto;
    injection Hx as ? ?; left; f_equal; lia.
Qed.

End PyFloatFacts.

Import PyFloatFacts.

(** ** The built-ins [min] and [max] *)

Section MinMax.

Lemma min_loop_In cur items : In (min_loop cur items) (cur :: items).
Proof.
  revert cur. induction items as [|x items IH]; intros cur; simpl.
  - now left.
  - destruct (IH (if ltb x cur then x else cur)) as [H|H]; auto.
    destruct (ltb x cur); rewrite <- H; auto.
Qed.

Lemma max_loop_In cur items : In (max_loop cur items) (cur :: items).
Proof.
  revert cur. induction items as [|x items IH]; intros cur; simpl.
  - now left.
  - destruct (IH (if ltb cur x then x else cur)) as [H|H]; auto.
    destruct (ltb cur x); rewrite <- H; auto.
Qed.

Lemma min_loop_le cur items :
  number cur -> Forall number items ->
  le (min_loop cur items) cur /\
  Forall (fun x => le (min_loop cur items) x) items.
Proof.
  revert cur. induction items as [|x items IH]; intros cur Hc Hn; simpl.
  - split; [now apply le_refl | constructor].
  - inversion Hn as [|? ? Hx Hr]; subst.
    destruct (ltb x cur) eqn:E.
    + destruct (IH x Hx Hr) as [H1 H2]. split.
      * eapply le_trans; [exact H1 | now apply lt_le].
      * constructor; assumption.
    + destruct (IH cur Hc Hr) as [H1 H2]. split; [assumption|].
      constructor; [|assumption].
      eapply le_trans; [exact H1 | apply ltb_false_le; assumption].
Qed.

Lemma max_loop_le cur items :
  number cur -> Forall number items ->
  le cur (max_loop cur items) /\
  Forall (fun x => le x (max_loop cur items)) items.
Proof.
  revert cur. induction items as [|x items IH]; intros cur Hc Hn; simpl.
  - split; [now apply le_refl | constructor].
  - inversion Hn as [|? ? Hx Hr]; subst.
    destruct (ltb cur x) eqn:E.
    + destruct (IH x Hx Hr) as [H1 H2]. split.
      * eapply le_trans; [|exact H1]. now apply lt_le.
      * constructor; assumption.
    + destruct (IH cur Hc Hr) as [H1 H2]. split; [assumption|].
      constructor; [|assumption].
      eapply le_trans; [|exact H1]. apply ltb_false_le; assumption.
Qed.

Lemma min_loop_minimum cur items :
  Forall number (cur :: items) ->
  minimum (cur :: items) (min_loop cur items).
Proof.
  intros H. inversion H; subst. split; [apply min_loop_In|].
  destruct (min_loop_le cur items) as [L1 L2]; auto.
Qed.

Lemma max_loop_maximum cur items :
  Forall number (cur :: items) ->
  maximum (cur :: items) (max_loop cur items).
Proof.
  intros H. inversion H; subst. split; [apply max_loop_In|].
  destruct (max_loop_le cur items) as [L1 L2]; auto.
Qed.

Lemma minimum_number l m : minimum l m -> number m.
Proof.
  intros [Hin Hall]. rewrite Forall_forall in Hall.
  eapply le_number_l, Hall, Hin.
Qed.

Lemma maximum_number l m : maximum l m -> number m.
Proof.
  intros [Hin Hall]. rewrite Forall_forall in Hall.
  eapply le_number_r, Hall, Hin.
Qed.

Lemma minimum_minimum_eq l m : minimum l m -> minimum_eq l m.
Proof.
  intros H. pose proof (minimum_number _ _ H). destruct H as [Hin Hall].
  split; [|assumption]. exists m. split; [assumption | now apply feq_refl].
Qed.

Lemma maximum_maximum_eq l m : maximum l m -> maximum_eq l m.
Proof.
  intros H. pose proof (maximum_number _ _ H). destruct H as [Hin Hall].
  split; [|assumption]. exists m. split; [assumption | now apply feq_refl].
Qed.

(** Two minima of one list are [==]; so are those of a permutation. *)
Lemma minimum_eq_unique l l' m m' :
  Permutation l l' -> minimum_eq l m -> minimum_eq l' m' -> feq m m'.
Proof.
  intros HP [(x & Hx & Ex) Hm] [(y & Hy & Ey) Hm'].
  rewrite Forall_forall in Hm, Hm'.
  apply le_antisym.
  - eapply le_trans; [apply (Hm y) | now apply feq_le].
    eapply Permutation_in; [symmetry; eassumption | assumption].
  - eapply le_trans; [apply (Hm' x) | now apply feq_le].
    eapply Permutation_in; eassumption.
Qed.

Lemma maximum_eq_unique l l' m m' :
  Permutation l l' -> maximum_eq l m -> maximum_eq l' m' -> feq m m'.
Proof.
  intros HP [(x & Hx & Ex) Hm] [(y & Hy & Ey) Hm'].
  rewrite Forall_forall in Hm, Hm'.
  apply le_antisym.
  - eapply le_trans; [apply feq_le, feq_sym, Ex | apply (Hm' x)].
    eapply Permutation_in; eassumption.
  - eapply le_trans; [apply feq_le, feq_sym, Ey | apply (Hm y)].
    eapply Permutation_in; [symmetry; eassumption | assumption].
Qed.

(** Lists that are [==] element by element have the same extrema. *)
Lemma minimum_eq_Forall2 l l' m :
  Forall2 feq l l' -> minimum_eq l m -> minimum_eq l' m.
Proof.
  intros HF [(x & Hx & Ex) Hm]. split.
  - clear Hm. induction HF as [|a b l l' Hab HF IH]; [destruct Hx|].
    destruct Hx as [->|Hx].
    + exists b. split; [now left|].
      eapply feq_trans; [apply feq_sym; eassumption | assumption].
    + destruct (IH Hx) as (y & Hy & Ey). exists y. split; [now right | assumption].
  - clear x Hx Ex. induction HF as [|a b l l' Hab HF IH]; constructor.
    + inversion Hm; subst. eapply le_trans; [eassumption | now apply feq_le].
    + inversion Hm; subst. now apply IH.
Qed.

Lemma maximum_eq_Forall2 l l' m :
  Forall2 feq l l' -> maximum_eq l m -> maximum_eq l' m.
Proof.
  intros HF [(x & Hx & Ex) Hm]. split.
  - clear Hm. induction HF as [|a b l l' Hab HF IH]; [destruct Hx|].
    destruct Hx as [->|Hx].
    + exists b. split; [now left|].
      eapply feq_trans; [apply feq_sym; eassumption | assumption].
    + destruct (IH Hx) as (y & Hy & Ey). exists y. split; [now right | assumption].
  - clear x Hx Ex. induction HF as [|a b l l' Hab HF IH]; constructor.
    + inversion Hm; subst.
      eapply le_trans; [apply feq_le, feq_sym; eassumption | assumption].
    + inversion Hm; subst. now apply IH.
Qed.

End MinMax.

(** ** Validation *)

Lemma is_valid_point_in_range p :
  is_valid_point (lat p, lng p) = true <-> in_range p.
Proof.
  unfold is_valid_point, in_range, le.
  rewrite !andb_true_iff. tauto.
Qed.

Lemma in_range_number p : in_range p -> number (lat p) /\ number (lng p).
Proof.
  intros (H1 & _ & H2 & _).
  split; eapply le_number_r; eassumption.
Qed.

Lemma in_range_numbers P :
  Forall in_range P -> Forall number (map lat P) /\ Forall number (map lng P).
Proof.
  induction 1 as [|p P Hp HP [IH1 IH2]]; simpl; [split; constructor|].
  destruct (in_range_number p Hp). split; constructor; assumption.
Qed.

Lemma validate_points_cons p P :
  validate_points (p :: P) =
  if negb (is_valid_point (lat p, lng p))
  then inl (InvalidPointException p)
  else validate_points P.
Proof. reflexivity. Qed.

Lemma validate_points_ok P :
  validate_points P = inr tt <-> Forall in_range P.
Proof.
  induction P as [|p P IH].
  - split; [constructor | reflexivity].
  - rewrite validate_points_cons.
    destruct (is_valid_point (lat p, lng p)) eqn:E; cbn [negb].
    + rewrite IH. apply is_valid_point_in_range in E. split.
      * now constructor.
      * now inversion 1.
    + split; [discriminate|]. inversion 1 as [|? ? Hp]; subst.
      apply is_valid_point_in_range in Hp. congruence.
Qed.

(** The loop raises at the first point of the sequence that is not valid. *)
Lemma validate_points_first P :
  Exists (fun p => is_valid_point (lat p, lng p) = false) P ->
  exists before q after,
    P = before ++ q :: after /\ Forall in_range before /\
    is_valid_point (lat q, lng q) = false /\
    validate_points P = inl (InvalidPointException q).
Proof.
  induction P as [|p P IH]; intros H; [inversion H|].
  rewrite validate_points_cons.
  destruct (is_valid_point (lat p, lng p)) eqn:E; cbn [negb].
  - inversion H as [? ? Hp|? ? HP]; subst; [congruence|].
    destruct (IH HP) as (before & q & after & -> & Hb & Hq & Hv).
    exists (p :: before), q, after. repeat split; try assumption.
    constructor; [now apply is_valid_point_in_range | assumption].
  - exists [], p, P. repeat split; [constructor | assumption].
Qed.

(** A coordinate strictly outside a range makes the point invalid. *)
Lemma out_of_range_invalid p :
  lt (of_Z 90) (lat p) \/ lt (lat p) (of_Z (-90)) \/
  lt (of_Z 180) (lng p) \/ lt (lng p) (of_Z (-180)) ->
  is_valid_point (lat p, lng p) = false.
Proof.
  unfold is_valid_point.
  intros [H|[H|[H|H]]]; apply lt_leb_false in H; rewrite H;
    rewrite ?andb_false_r; reflexivity.
Qed.

(** ** Assignment to [data], case by case *)

Lemma calc_bounds_cons p rest s :
  _calc_bounds (p :: rest) s = (put_data_bounds (box p rest) s, inr tt).
Proof.
  unfold _calc_bounds, set, bind, lift, gets, modify, ret; simpl.
  destruct (list_eqb pair_eqb _ _); reflexivity.
Qed.

Lemma set_data_short v s :
  (List.length v < 2)%nat -> set_data v s = (s, inl TraitError).
Proof.
  intros H. unfold set_data, set, bind, lift; simpl. unfold List_validate.
  apply Nat.ltb_lt in H. now rewrite H.
Qed.

Lemma set_data_invalid v s e :
  (2 <= List.length v)%nat -> validate_points v = inl e ->
  set_data v s = (s, inl e).
Proof.
  intros H Hv. unfold set_data, set, bind, lift; simpl. unfold List_validate.
  apply Nat.ltb_ge in H. rewrite H.
  unfold _validate_data, bind, lift. now rewrite Hv.
Qed.

Lemma set_data_valid v s :
  (2 <= List.length v)%nat -> validate_points v = inr tt ->
  exists p rest, v = p :: rest /\
    set_data v s =
      (if list_eqb LatLng_eqb (data s) v then put_data v s
       else put_data_bounds (box p rest) (put_data v s), inr tt).
Proof.
  intros H Hv. destruct v as [|p rest]; [simpl in H; lia|].
  exists p, rest. split; [reflexivity|].
  unfold set_data, set, bind, lift; simpl trait_get; simpl validate.
  unfold List_validate. apply Nat.ltb_ge in H. rewrite H.
  simpl cross_validate. unfold _validate_data, bind, lift. rewrite Hv.
  unfold ret, gets, modify.
  change (trait_eqb data_trait) with (list_eqb LatLng_eqb).
  change (observer data_trait) with _calc_bounds.
  destruct (list_eqb LatLng_eqb (data s) (p :: rest)); [reflexivity|].
  apply calc_bounds_cons.
Qed.

Lemma set_data_cases v s :
  (exists e, set_data v s = (s, inl e)) \/
  ((2 <= List.length v)%nat /\ validate_points v = inr tt).
Proof.
  destruct (Nat.ltb_spec (List.length v) 2) as [H|H].
  - left. exists TraitError. now apply set_data_short.
  - destruct (validate_points v) as [e|[]] eqn:E.
    + left. exists e. now apply set_data_invalid.
    + right. split; [assumption | reflexivity].
Qed.

(** ** The traits that are not [data]: they leave [data] and
       [data_bounds] alone *)

Section StyleTraits.

Context {I A : Type} (t : TraitType I A) (St : style_trait t).

Lemma set_keeps_data v : keeps_data (set t v).
Proof.
  destruct St as (Hc & Ho & Hp). intros s.
  unfold set, bind, lift, gets, modify, ret. rewrite Hc, Ho.
  destruct (validate t v) as [e|a]; simpl; [tauto|].
  destruct (trait_eqb t (trait_get t s) a); simpl; apply Hp.
Qed.

Lemma set_held_opt_keeps_data o : keeps_data (set_held_opt t o).
Proof.
  destruct St as (Hc & Ho & Hp). intros s.
  destruct o as [v|]; simpl; [|tauto].
  unfold set_held, bind, lift, gets, modify, ret.
  destruct (validate t v) as [e|a]; simpl; [tauto | apply Hp].
Qed.

Lemma release_keeps_data c : keeps_data (release t c).
Proof.
  destruct St as (Hc & Ho & Hp). intros s.
  destruct c; simpl; [|tauto].
  unfold bind, gets, modify. rewrite Hc. simpl. apply Hp.
Qed.

Lemma deliver_keeps_data c : keeps_data (deliver t c).
Proof.
  destruct St as (Hc & Ho & Hp). intros s.
  destruct c; simpl; [|tauto].
  unfold bind, gets. rewrite Ho. simpl. tauto.
Qed.

End StyleTraits.

Lemma geodesic_style : style_trait geodesic_trait.
Proof. repeat split. Qed.

Lemma stroke_color_style : style_trait stroke_color_trait.
Proof. repeat split. Qed.

Lemma stroke_opacity_style : style_trait stroke_opacity_trait.
Proof. repeat split. Qed.

Lemma stroke_weight_style : style_trait stroke_weight_trait.
Proof. repeat split. Qed.

Create HintDb style.
#[local] Hint Resolve geodesic_style stroke_color_style stroke_opacity_style
  stroke_weight_style : style.

(** An assignment that fails the type check changes nothing; one to a style
    trait that passes it stores the checked value. *)
Lemma set_rejected {I A} (t : TraitType I A) v s e :
  validate t v = inl e -> set t v s = (s, inl e).
Proof. intros H. unfold set, bind, lift. now rewrite H. Qed.

Lemma set_style_accepted {I A} (t : TraitType I A) (St : style_trait t) v a s :
  validate t v = inr a -> set t v s = (trait_put t a s, inr tt).
Proof.
  intros H. destruct St as (Hc & Ho & _).
  unfold set, bind, lift. rewrite H, Hc, Ho.
  unfold no_cross_validate, no_observer, gets, modify, ret.
  destruct (trait_eqb t (trait_get t s) a); reflexivity.
Qed.

(** What a run that kept [data] says about its final trait values. *)
Lemma keeps_data_run {A} (m : M A) s s' r :
  keeps_data m -> m s = (s', r) ->
  data s' = data s /\ data_bounds s' = data_bounds s.
Proof. intros K E. specialize (K s). now rewrite E in K. Qed.

Lemma bind_inr {A B} (m : M A) (k : A -> M B) s s' b :
  bind m k s = (s', inr b) ->
  exists s1 a, m s = (s1, inr a) /\ k a s1 = (s', inr b).
Proof.
  unfold bind. destruct (m s) as [s1 [e|a]]; [discriminate|].
  intros H. now exists s1, a.
Qed.

(** ** Construction *)

Lemma set_held_data o s s1 c :
  set_held_opt data_trait o s = (s1, inr c) ->
  match o with
  | None => s1 = s /\ c = false
  | Some v =>
      (2 <= List.length v)%nat /\ s1 = put_data v s /\
      c = negb (list_eqb LatLng_eqb (data s) v)
  end.
Proof.
  destruct o as [v|]; simpl.
  - unfold set_held, bind, lift, gets, modify, ret; simpl validate.
    unfold List_validate. destruct (Nat.ltb_spec (List.length v) 2) as [H|H];
      [discriminate|].
    intros E. injection E as <- <-. now repeat split.
  - unfold ret. intros E. injection E as <- <-. now split.
Qed.

Lemma release_data c s s1 :
  release data_trait c s = (s1, inr tt) ->
  if c then validate_points (data s) = inr tt /\ s1 = put_data (data s) s
  else s1 = s.
Proof.
  destruct c; simpl.
  - unfold bind, gets, modify, _validate_data, bind, lift, ret; simpl trait_get.
    destruct (validate_points (data s)) as [e|[]]; [discriminate|].
    intros E. injection E as <-. now split.
  - unfold ret. intros E. now injection E as <-.
Qed.

Lemma deliver_data c s s1 :
  deliver data_trait c s = (s1, inr tt) ->
  if c then _calc_bounds (data s) s = (s1, inr tt) else s1 = s.
Proof.
  destruct c; simpl.
  - unfold bind, gets; simpl. trivial.
  - unfold ret. intros E. now injection E as <-.
Qed.

(** A successful [Polyline(...)] either got no [data] and has the empty
    defaults, or got a sequence that passed both checks and has its box. *)
Lemma Polyline_new_inv kw s :
  Polyline_new kw = inr s ->
  match kw_data kw with
  | None => data s = [] /\ data_bounds s = []
  | Some v =>
      (2 <= List.length v)%nat /\ validate_points v = inr tt /\
      data s = v /\
      exists p rest, v = p :: rest /\ data_bounds s = box p rest
  end.
Proof.
  unfold Polyline_new.
  destruct (HasTraits_init kw defaults) as [s' [e|[]]] eqn:E; [discriminate|].
  intros H. injection H as ->. unfold HasTraits_init in E.
  apply bind_inr in E as (s1 & c_data & E1 & E).
  apply bind_inr in E as (s2 & c2 & E2 & E).
  apply bind_inr in E as (s3 & c3 & E3 & E).
  apply bind_inr in E as (s4 & c4 & E4 & E).
  apply bind_inr in E as (s5 & c5 & E5 & E).
  apply bind_inr in E as (s6 & [] & E6 & E).
  apply bind_inr in E as (s7 & [] & E7 & E).
  apply bind_inr in E as (s8 & [] & E8 & E).
  apply bind_inr in E as (s9 & [] & E9 & E).
  apply bind_inr in E as (s10 & [] & E10 & E).
  apply bind_inr in E as (s11 & [] & E11 & E).
  apply bind_inr in E as (s12 & [] & E12 & E).
  apply bind_inr in E as (s13 & [] & E13 & E).
  apply bind_inr in E as (s14 & [] & E14 & E).
  apply keeps_data_run in E2 as [D2 B2];
    [|apply set_held_opt_keeps_data; auto with style].
  apply keeps_data_run in E3 as [D3 B3];
    [|apply set_held_opt_keeps_data; auto with style].
  apply keeps_data_run in E4 as [D4 B4];
    [|apply set_held_opt_keeps_data; auto with style].
  apply keeps_data_run in E5 as [D5 B5];
    [|apply set_held_opt_keeps_data; auto with style].
  apply keeps_data_run in E7 as [D7 B7];
    [|apply release_keeps_data; auto with style].
  apply keeps_data_run in E8 as [D8 B8];
    [|apply release_keeps_data; auto with style].
  apply keeps_data_run in E9 as [D9 B9];
    [|apply release_keeps_data; auto with style].
  apply keeps_data_run in E10 as [D10 B10];
    [|apply release_keeps_data; auto with style].
  apply keeps_data_run in E12 as [D12 B12];
    [|apply deliver_keeps_data; auto with style].
  apply keeps_data_run in E13 as [D13 B13];
    [|apply deliver_keeps_data; auto with style].
  apply keeps_data_run in E14 as [D14 B14];
    [|apply deliver_keeps_data; auto with style].
  apply keeps_data_run in E as [D15 B15];
    [|apply deliver_keeps_data; auto with style].
  apply set_held_data in E1. apply release_data in E6.
  apply deliver_data in E11.
  destruct (kw_data kw) as [v|].
  - destruct E1 as (Hlen & -> & ->).
    destruct v as [|p rest]; [simpl in Hlen; lia|].
    simpl negb in E6, E11.
    assert (D1 : data s5 = p :: rest) by (rewrite D5, D4, D3, D2; reflexivity).
    destruct E6 as [Hv ->]. rewrite D1 in Hv.
    assert (D6 : data s10 = p :: rest)
      by (rewrite D10, D9, D8, D7; exact D1).
    rewrite D6, calc_bounds_cons in E11. injection E11 as <-.
    repeat split; try assumption.
    + rewrite D15, D14, D13, D12. exact D6.
    + exists p, rest. split; [reflexivity|].
      rewrite B15, B14, B13, B12. reflexivity.
  - destruct E1 as [-> ->]. subst s6 s11. split.
    + rewrite D15, D14, D13, D12, D10, D9, D8, D7, D5, D4, D3, D2. reflexivity.
    + rewrite B15, B14, B13, B12, B10, B9, B8, B7, B5, B4, B3, B2. reflexivity.
Qed.

Lemma Polyline_new_data_only_valid p rest :
  (2 <= List.length (p :: rest))%nat ->
  validate_points (p :: rest) = inr tt ->
  Polyline_new (data_only (p :: rest)) =
  inr (put_data_bounds (box p rest) (put_data (p :: rest) defaults)).
Proof.
  intros H Hv. unfold Polyline_new, HasTraits_init, data_only.
  cbn [kw_data kw_geodesic kw_stroke_color kw_stroke_opacity kw_stroke_weight
       set_held_opt].
  unfold set_held at 1. unfold bind at 1 2. unfold lift. simpl validate.
  unfold List_validate. apply Nat.ltb_ge in H. rewrite H.
  unfold bind at 1, gets at 1. unfold bind at 1 2, modify at 1, ret at 1.
  unfold bind at 1 2 3 4, ret at 1 2 3 4.
  change (trait_eqb data_trait (trait_get data_trait defaults) (p :: rest))
    with false.
  cbn [negb release deliver].
  unfold bind at 1 2, gets at 1.
  change (trait_get data_trait (trait_put data_trait (p :: rest) defaults))
    with (p :: rest).
  change (cross_validate data_trait) with _validate_data.
  unfold _validate_data, bind at 1 2, lift at 1. rewrite Hv.
  unfold ret at 1, modify at 1.
  unfold bind at 1 2 3 4, ret at 1 2 3 4.
  unfold bind at 1 2, gets at 1.
  change (observer data_trait) with _calc_bounds.
  change (trait_get data_trait
            (trait_put data_trait (p :: rest)
               (trait_put data_trait (p :: rest) defaults)))
    with (p :: rest).
  rewrite calc_bounds_cons.
  unfold bind, ret. reflexivity.
Qed.

Lemma Polyline_new_data_only_short v :
  (List.length v < 2)%nat -> Polyline_new (data_only v) = inl TraitError.
Proof.
  intros H. unfold Polyline_new, HasTraits_init, data_only.
  cbn [kw_data set_held_opt].
  unfold set_held at 1. unfold bind at 1 2. unfold lift. simpl validate.
  unfold List_validate. apply Nat.ltb_lt in H. now rewrite H.
Qed.

Lemma Polyline_new_data_only_invalid v e :
  (2 <= List.length v)%nat -> validate_points v = inl e ->
  Polyline_new (data_only v) = inl e.
Proof.
  intros H Hv. unfold Polyline_new, HasTraits_init, data_only.
  cbn [kw_data kw_geodesic kw_stroke_color kw_stroke_opacity kw_stroke_weight
       set_held_opt].
  unfold set_held at 1. unfold bind at 1 2. unfold lift. simpl validate.
  unfold List_validate.
  destruct v as [|p rest]; [simpl in H; lia|].
  apply Nat.ltb_ge in H. rewrite H.
  unfold bind at 1, gets at 1. unfold bind at 1 2, modify at 1, ret at 1.
  unfold bind at 1 2 3 4, ret at 1 2 3 4.
  change (trait_eqb data_trait (trait_get data_trait defaults) (p :: rest))
    with false.
  cbn [negb release deliver].
  unfold bind at 1 2, gets at 1.
  change (trait_get data_trait (trait_put data_trait (p :: rest) defaults))
    with (p :: rest).
  change (cross_validate data_trait) with _validate_data.
  unfold _validate_data, bind at 1 2, lift at 1. now rewrite Hv.
Qed.

(** ** The invariant of the widget *)

Lemma box_bounding_box p rest :
  Forall in_range (p :: rest) -> bounding_box (p :: rest) (box p rest).
Proof.
  intros H. destruct (in_range_numbers _ H) as [Hlat Hlng].
  simpl map in Hlat, Hlng.
  eexists _, _, _, _. split; [reflexivity|]. simpl map.
  split; [exact (minimum_minimum_eq _ _ (min_loop_minimum _ _ Hlat))|].
  split; [exact (minimum_minimum_eq _ _ (min_loop_minimum _ _ Hlng))|].
  split; [exact (maximum_maximum_eq _ _ (max_loop_maximum _ _ Hlat))|].
  exact (maximum_maximum_eq _ _ (max_loop_maximum _ _ Hlng)).
Qed.

Lemma list_eqb_Forall2 l l' :
  list_eqb LatLng_eqb l l' = true ->
  Forall2 feq (map lat l) (map lat l') /\ Forall2 feq (map lng l) (map lng l').
Proof.
  revert l'. induction l as [|p l IH]; intros [|q l'] H; simpl in H;
    try discriminate; simpl.
  - split; constructor.
  - apply andb_true_iff in H as [Hpq H]. apply andb_true_iff in Hpq as [H1 H2].
    destruct (IH _ H). split; constructor; assumption.
Qed.

Lemma bounding_box_eq_data l l' b :
  list_eqb LatLng_eqb l l' = true -> bounding_box l b -> bounding_box l' b.
Proof.
  intros H (a1 & a2 & b1 & b2 & -> & H1 & H2 & H3 & H4).
  destruct (list_eqb_Forall2 _ _ H) as [Flat Flng].
  exists a1, a2, b1, b2. split; [reflexivity|].
  split; [exact (minimum_eq_Forall2 _ _ _ Flat H1)|].
  split; [exact (minimum_eq_Forall2 _ _ _ Flng H2)|].
  split; [exact (maximum_eq_Forall2 _ _ _ Flat H3)|].
  exact (maximum_eq_Forall2 _ _ _ Flng H4).
Qed.

Lemma consistent_keeps {A} (m : M A) s :
  keeps_data m -> consistent s -> consistent (fst (m s)).
Proof.
  intros K C. destruct (K s) as [D B]. unfold consistent.
  now rewrite D, B.
Qed.

Lemma set_data_consistent v s :
  consistent s -> consistent (fst (set_data v s)).
Proof.
  intros C. destruct (set_data_cases v s) as [[e E]|[Hlen Hv]].
  - now rewrite E.
  - destruct (set_data_valid v s Hlen Hv) as (p & rest & -> & E).
    rewrite E. simpl fst. apply validate_points_ok in Hv.
    destruct (list_eqb LatLng_eqb (data s) (p :: rest)) eqn:Q.
    + split; [exact Hv|]. right. simpl.
      destruct C as [_ [C|C]].
      * rewrite C in Q. discriminate.
      * eapply bounding_box_eq_data; eassumption.
    + split; [exact Hv|]. right. simpl. now apply box_bounding_box.
Qed.

Lemma reachable_consistent s : reachable s -> consistent s.
Proof.
  induction 1 as [kw s H| | | | |].
  - apply Polyline_new_inv in H. unfold consistent.
    destruct (kw_data kw) as [v|].
    + destruct H as (_ & Hv & -> & p & rest & -> & ->).
      apply validate_points_ok in Hv. split; [assumption|].
      right. now apply box_bounding_box.
    + destruct H as [-> ->]. split; [constructor | now left].
  - now apply set_data_consistent.
  - apply consistent_keeps; [apply set_keeps_data; auto with style | assumption].
  - apply consistent_keeps; [apply set_keeps_data; auto with style | assumption].
  - apply consistent_keeps; [apply set_keeps_data; auto with style | assumption].
  - apply consistent_keeps; [apply set_keeps_data; auto with style | assumption].
Qed.

(** ** Consequences used by the properties *)

Lemma valid_sequence_checks P :
  valid_sequence P ->
  (2 <= List.length P)%nat /\ validate_points P = inr tt.
Proof. intros [H1 H2]. split; [assumption | now apply validate_points_ok]. Qed.

(** Assigning a valid sequence to a reachable widget succeeds, commits the
    sequence, and leaves [data_bounds] a bounding box of it. *)
Lemma set_data_reachable P s :
  reachable s -> valid_sequence P ->
  exists s', set_data P s = (s', inr tt) /\ data s' = P /\
             bounding_box P (data_bounds s').
Proof.
  intros R V. destruct (valid_sequence_checks P V) as [Hlen Hv].
  pose proof (set_data_consistent P s (reachable_consistent s R)) as C.
  destruct (set_data_valid P s Hlen Hv) as (p & rest & -> & E).
  rewrite E in C. rewrite E. eexists. split; [reflexivity|].
  assert (D : data (if list_eqb LatLng_eqb (data s) (p :: rest)
                    then put_data (p :: rest) s
                    else put_data_bounds (box p rest) (put_data (p :: rest) s))
              = p :: rest)
    by (destruct (list_eqb LatLng_eqb (data s) (p :: rest)); reflexivity).
  split; [exact D|]. simpl fst in C. destruct C as [_ [C|C]].
  - rewrite D in C. discriminate.
  - now rewrite D in C.
Qed.

Lemma Polyline_new_valid P :
  valid_sequence P ->
  exists p rest, P = p :: rest /\
    Polyline_new (data_only P) =
    inr (put_data_bounds (box p rest) (put_data P defaults)).
Proof.
  intros V. destruct (valid_sequence_checks P V) as [Hlen Hv].
  destruct P as [|p rest]; [simpl in Hlen; lia|].
  exists p, rest. split; [reflexivity|].
  now apply Polyline_new_data_only_valid.
Qed.

(** The bounding boxes of a sequence and of a reordering of it are [==]. *)
Lemma bounding_box_perm P P' b b' :
  Permutation P P' -> bounding_box P b -> bounding_box P' b' -> bounds_eq b b'.
Proof.
  intros HP (a1 & a2 & a3 & a4 & -> & H1 & H2 & H3 & H4)
            (c1 & c2 & c3 & c4 & -> & K1 & K2 & K3 & K4).
  pose proof (Permutation_map lat HP) as Plat.
  pose proof (Permutation_map lng HP) as Plng.
  unfold bounds_eq, list_eqb, pair_eqb; simpl.
  rewrite (minimum_eq_unique _ _ _ _ Plat H1 K1).
  rewrite (minimum_eq_unique _ _ _ _ Plng H2 K2).
  rewrite (maximum_eq_unique _ _ _ _ Plat H3 K3).
  rewrite (maximum_eq_unique _ _ _ _ Plng H4 K4).
  reflexivity.
Qed.

Lemma valid_sequence_perm P P' :
  Permutation P P' -> valid_sequence P -> valid_sequence P'.
Proof.
  intros HP [Hlen Hall]. split.
  - now rewrite <- (Permutation_length HP).
  - rewrite Forall_forall in *. intros p Hp. apply Hall.
    eapply Permutation_in; [symmetry; eassumption | assumption].
Qed.

Lemma le_ltb_false x y : le x y -> ltb y x = false.
Proof.
  intros H. destruct (ltb y x) eqn:E; [|reflexivity].
  apply lt_leb_false in E. unfold le in H. congruence.
Qed.

(** In a bounding box of a non-empty sequence the first corner is below
    the second, and every component is [==] to a coordinate of a point. *)
Lemma bounding_box_corners P b :
  P <> [] -> bounding_box P b ->
  exists a1 a2 c1 c2,
    b = [(a1, a2); (c1, c2)] /\ le a1 c1 /\ le a2 c2 /\
    (exists p, In p P /\ feq (lat p) a1) /\
    (exists p, In p P /\ feq (lng p) a2) /\
    (exists p, In p P /\ feq (lat p) c1) /\
    (exists p, In p P /\ feq (lng p) c2).
Proof.
  intros NE (a1 & a2 & c1 & c2 & -> & [A1 L1] & [A2 L2] & [A3 L3] & [A4 L4]).
  exists a1, a2, c1, c2. split; [reflexivity|].
  destruct P as [|p0 P]; [congruence|]. simpl map in *.
  split; [|split].
  - inversion L1; inversion L3; subst. eapply le_trans; eassumption.
  - inversion L2; inversion L4; subst. eapply le_trans; eassumption.
  - change (lat p0 :: map lat P) with (map lat (p0 :: P)) in *.
    change (lng p0 :: map lng P) with (map lng (p0 :: P)) in *.
    repeat split.
    + destruct A1 as (x & Hx & Ex). apply in_map_iff in Hx as (p & <- & Hp). eauto.
    + destruct A2 as (x & Hx & Ex). apply in_map_iff in Hx as (p & <- & Hp). eauto.
    + destruct A3 as (x & Hx & Ex). apply in_map_iff in Hx as (p & <- & Hp). eauto.
    + destruct A4 as (x & Hx & Ex). apply in_map_iff in Hx as (p & <- & Hp). eauto.
Qed.

(** A pair whose components are [==] to coordinates in range is valid. *)
Lemma feq_valid_corner P a b :
  Forall in_range P ->
  (exists p, In p P /\ feq (lat p) a) ->
  (exists p, In p P /\ feq (lng p) b) ->
  is_valid_point (a, b) = true.
Proof.
  intros HP (p & Hp & Ep) (q & Hq & Eq). rewrite Forall_forall in HP.
  destruct (HP p Hp) as (P1 & P2 & _ & _).
  destruct (HP q Hq) as (_ & _ & Q3 & Q4).
  unfold is_valid_point. rewrite !andb_true_iff. repeat split.
  - eapply le_trans; [exact P1 | now apply feq_le].
  - eapply le_trans; [apply feq_le, feq_sym; eassumption | exact P2].
  - eapply le_trans; [exact Q3 | now apply feq_le].
  - eapply le_trans; [apply feq_le, feq_sym; eassumption | exact Q4].
Qed.

(** Ranges of concrete points are checked by evaluation. *)
Ltac in_range_by_computation :=
  repeat first [apply Forall_nil | apply Forall_cons];
  unfold in_range; repeat apply conj; vm_compute; reflexivity.

(** ** The properties *)

(** C1: for every valid PointSequence (at least two points, every latitude
    in [-90, 90] and every longitude in [-180, 180]) committed to [data],
    by the constructor or by an assignment, the commit succeeds and
    [data_bounds] is the two-element list of (minimum latitude, minimum
    longitude) and (maximum latitude, maximum longitude), each extremum
    taken on its own axis over all the points: a coordinate of some point
    that is below (above) the coordinate of every point.  After the
    constructor the extrema are members of the sequence; after an
    assignment to an existing widget they are so up to [==] on floats. *)
Theorem C1_data_bounds_per_axis_extrema (P : list LatLng) :
  valid_sequence P ->
  (exists e min_lat min_lng max_lat max_lng,
      Polyline_new (data_only P) = inr e /\
      data e = P /\
      data_bounds e = [(min_lat, min_lng); (max_lat, max_lng)] /\
      minimum (map lat P) min_lat /\ minimum (map lng P) min_lng /\
      maximum (map lat P) max_lat /\ maximum (map lng P) max_lng) /\
  (forall s, reachable s ->
     exists s', set_data P s = (s', inr tt) /\ data s' = P /\
                bounding_box P (data_bounds s')).
Proof.
  intros V. split.
  - destruct (Polyline_new_valid P V) as (p & rest & -> & E).
    destruct V as [_ Hall].
    destruct (in_range_numbers _ Hall) as [Hlat Hlng].
    simpl map in Hlat, Hlng.
    eexists _, _, _, _, _. split; [exact E|].
    split; [reflexivity|]. split; [reflexivity|]. simpl map.
    split; [now apply min_loop_minimum|].
    split; [now apply min_loop_minimum|].
    split; now apply max_loop_maximum.
  - intros s R. now apply set_data_reachable.
Qed.

Lemma C1_witness :
  (exists e min_lat min_lng max_lat max_lng,
      Polyline_new (data_only capitals) = inr e /\
      data e = capitals /\
      data_bounds e = [(min_lat, min_lng); (max_lat, max_lng)] /\
      minimum (map lat capitals) min_lat /\
      minimum (map lng capitals) min_lng /\
      maximum (map lat capitals) max_lat /\
      maximum (map lng capitals) max_lng) /\
  (forall s, reachable s ->
     exists s', set_data capitals s = (s', inr tt) /\ data s' = capitals /\
                bounding_box capitals (data_bounds s')).
Proof.
  apply (C1_data_bounds_per_axis_extrema capitals).
  split; [simpl; lia | in_range_by_computation].
Defined.

(** C2: for every candidate PointSequence (a sequence of at least two
    points, as the data model has it) that contains a coordinate with
    lat > 90, lat < -90, lng > 180 or lng < -180, both the assignment to
    [data] and the construction fail with [InvalidPointException] carrying
    an offending pair, the first point of the sequence that is not in
    range, and the assignment leaves every trait value of the widget,
    [data] and [data_bounds] included, as it was. *)
Theorem C2_invalid_coordinate_rejected (P : list LatLng) :
  (2 <= List.length P)%nat ->
  Exists out_of_range P ->
  exists before q after,
    P = before ++ q :: after /\ Forall in_range before /\ ~ in_range q /\
    (forall s, set_data P s = (s, inl (InvalidPointException q))) /\
    Polyline_new (data_only P) = inl (InvalidPointException q).
Proof.
  intros Hlen Hex.
  assert (Hex' : Exists (fun p => is_valid_point (lat p, lng p) = false) P).
  { apply Exists_exists in Hex as (p & Hp & Ho). apply Exists_exists.
    exists p. split; [assumption | now apply out_of_range_invalid]. }
  destruct (validate_points_first P Hex')
    as (before & q & after & E & Hb & Hq & Hv).
  exists before, q, after. split; [exact E|]. split; [exact Hb|]. split.
  - intros Hr. apply is_valid_point_in_range in Hr. congruence.
  - split.
    + intros s. now apply set_data_invalid.
    + now apply Polyline_new_data_only_invalid.
Qed.

Lemma C2_witness :
  exists before q after,
    [mkLatLng (of_Z 10) (of_Z 20); mkLatLng (of_Z 91) (of_Z 0)]
      = before ++ q :: after /\
    Forall in_range before /\ ~ in_range q /\
    (forall s,
       set_data [mkLatLng (of_Z 10) (of_Z 20); mkLatLng (of_Z 91) (of_Z 0)] s
       = (s, inl (InvalidPointException q))) /\
    Polyline_new
      (data_only [mkLatLng (of_Z 10) (of_Z 20); mkLatLng (of_Z 91) (of_Z 0)])
    = inl (InvalidPointException q).
Proof.
  apply (C2_invalid_coordinate_rejected
           [mkLatLng (of_Z 10) (of_Z 20); mkLatLng (of_Z 91) (of_Z 0)]).
  - simpl; lia.
  - apply Exists_cons_tl, Exists_cons_hd. left. vm_compute. reflexivity.
Defined.

(** C3: assigning to [data] a sequence of length 1 is rejected, whatever
    its single coordinate pair is, valid or not: the assignment raises
    [TraitError] (the minimum length of the trait is 2) and changes no
    trait value, and the constructor raises it as well. *)
Theorem C3_single_point_rejected (p : LatLng) (s : Polyline) :
  set_data [p] s = (s, inl TraitError) /\
  Polyline_new (data_only [p]) = inl TraitError.
Proof.
  split.
  - apply set_data_short. simpl. lia.
  - apply Polyline_new_data_only_short. simpl. lia.
Qed.

Lemma boundary_or_inside_in_range p : boundary_or_inside p -> in_range p.
Proof.
  intros [Hlat Hlng]. unfold in_range.
  assert (A : le (of_Z (-90)) (lat p) /\ le (lat p) (of_Z 90)).
  { destruct Hlat as [H|[H|[H1 H2]]].
    - rewrite H. apply conj; vm_compute; reflexivity.
    - rewrite H. apply conj; vm_compute; reflexivity.
    - apply conj; now apply lt_le. }
  assert (B : le (of_Z (-180)) (lng p) /\ le (lng p) (of_Z 180)).
  { destruct Hlng as [H|[H|[H1 H2]]].
    - rewrite H. apply conj; vm_compute; reflexivity.
    - rewrite H. apply conj; vm_compute; reflexivity.
    - apply conj; now apply lt_le. }
  tauto.
Qed.

(** C4: the range bounds are inclusive.  For every sequence of at least
    two points whose latitudes are each 90, -90 or strictly in between and
    whose longitudes are each 180, -180 or strictly in between, the
    assignment to [data] is accepted without error and commits the
    sequence, on any widget, and so is the construction. *)
Theorem C4_boundary_values_accepted (P : list LatLng) (s : Polyline) :
  (2 <= List.length P)%nat ->
  Forall boundary_or_inside P ->
  (exists s', set_data P s = (s', inr tt) /\ data s' = P) /\
  (exists e, Polyline_new (data_only P) = inr e /\ data e = P).
Proof.
  intros Hlen HB.
  assert (V : valid_sequence P).
  { split; [assumption|]. eapply Forall_impl; [|exact HB].
    apply boundary_or_inside_in_range. }
  destruct (valid_sequence_checks P V) as [_ Hv]. split.
  - destruct (set_data_valid P s Hlen Hv) as (p & rest & -> & E).
    rewrite E. eexists. split; [reflexivity|].
    destruct (list_eqb LatLng_eqb (data s) (p :: rest)); reflexivity.
  - destruct (Polyline_new_valid P V) as (p & rest & -> & E).
    rewrite E. eexists. split; reflexivity.
Qed.

Lemma C4_witness :
  (exists s', set_data corners defaults = (s', inr tt) /\ data s' = corners) /\
  (exists e, Polyline_new (data_only corners) = inr e /\ data e = corners).
Proof.
  apply (C4_boundary_values_accepted corners defaults).
  - simpl; lia.
  - apply Forall_cons; [|apply Forall_cons; [|apply Forall_nil]].
    + split; left; reflexivity.
    + split; right; left; reflexivity.
Defined.

(** C5: for every widget with a committed sequence and every new valid
    sequence, re-assigning [data] succeeds, commits the new sequence, and
    leaves in [data_bounds] the per-axis minimum and maximum corners of the
    new sequence alone: a bounding box of the new sequence, equal ([==]) to
    the [data_bounds] of a widget freshly constructed from the new
    sequence, and identical to it whenever the new sequence is not [==]
    to the old one. *)
Theorem C5_reassignment_recomputes_bounds (s : Polyline) (P : list LatLng) :
  reachable s ->
  valid_sequence P ->
  exists s' e,
    set_data P s = (s', inr tt) /\ data s' = P /\
    bounding_box P (data_bounds s') /\
    Polyline_new (data_only P) = inr e /\
    bounds_eq (data_bounds s') (data_bounds e) /\
    (list_eqb LatLng_eqb (data s) P = false ->
     data_bounds s' = data_bounds e).
Proof.
  intros R V.
  destruct (set_data_reachable P s R V) as (s' & E & D & B).
  destruct (Polyline_new_valid P V) as (p & rest & HP & N).
  exists s'. eexists. split; [exact E|]. split; [exact D|].
  split; [exact B|]. split; [exact N|]. split.
  - eapply bounding_box_perm; [apply Permutation_refl | exact B |].
    simpl. rewrite HP. apply box_bounding_box. rewrite <- HP. apply V.
  - intros Q. destruct (valid_sequence_checks P V) as [Hlen Hv].
    destruct (set_data_valid P s Hlen Hv) as (p' & rest' & HP' & E').
    rewrite E in E'. rewrite Q in E'. injection E' as ->.
    rewrite HP in HP'. injection HP' as <- <-. reflexivity.
Qed.

Lemma C5_witness :
  exists s' e,
    set_data corners example_widget = (s', inr tt) /\ data s' = corners /\
    bounding_box corners (data_bounds s') /\
    Polyline_new (data_only corners) = inr e /\
    bounds_eq (data_bounds s') (data_bounds e) /\
    (list_eqb LatLng_eqb (data example_widget) corners = false ->
     data_bounds s' = data_bounds e).
Proof.
  apply (C5_reassignment_recomputes_bounds example_widget corners).
  - apply (reach_new (data_only capitals)). vm_compute. reflexivity.
  - split; [simpl; lia | in_range_by_computation].
Defined.

(** C6: the construction helper called on the points
    [(46.4, 6.9), (46.9, 8.0)] with no style argument returns a widget with
    geodesic = True, stroke_color = "#FF0000", stroke_opacity = 1.0 and
    stroke_weight = 2 (stored as the float 2.0). *)
Theorem C6_helper_defaults :
  exists e,
    polyline_layer swiss_points None None None None = inr e /\
    geodesic e = true /\
    stroke_color e = "#FF0000"%string /\
    stroke_opacity e = decimal 10 1 /\
    stroke_weight e = of_Z 2.
Proof.
  eexists. split; [vm_compute; reflexivity|].
  repeat apply conj; vm_compute; reflexivity.
Qed.

(** C7: for the points [(48.85341, 2.3488), (50.85045, 4.34878),
    (52.37403, 4.88969)] the construction succeeds and [data_bounds] is
    [[(48.85341, 2.3488), (52.37403, 4.88969)]]. *)
Theorem C7_docstring_bounds :
  exists e,
    polyline_layer [paris; brussels; amsterdam] None None None None = inr e /\
    data_bounds e = [paris; amsterdam].
Proof.
  eexists. split; vm_compute; reflexivity.
Qed.

Lemma Float_validate_outside lo hi v :
  outside lo hi v -> Float_validate lo hi (PyFloat v) = inl TraitError.
Proof.
  unfold Float_validate, lt. intros [H|H]; rewrite H; [reflexivity|].
  destruct (ltb v lo); reflexivity.
Qed.

Lemma Float_validate_inside lo hi v :
  inside lo hi v -> Float_validate lo hi (PyFloat v) = inr v.
Proof.
  unfold Float_validate. intros [H1 H2].
  now rewrite (le_ltb_false _ _ H1), (le_ltb_false _ _ H2).
Qed.

(** C8: assigning [stroke_opacity] a float below 0 or above 1, or
    [stroke_weight] a float below 1 or above 5, fails at once with
    [TraitError], the error of a value out of the declared range, and
    every trait value stays as it was; a float inside the declared range
    is accepted and becomes the value of the attribute. *)
Theorem C8_style_ranges (s : Polyline) (o_out o_in w_out w_in : float) :
  outside (of_Z 0) (of_Z 1) o_out ->
  inside (of_Z 0) (of_Z 1) o_in ->
  outside (of_Z 1) (of_Z 5) w_out ->
  inside (of_Z 1) (of_Z 5) w_in ->
  set_stroke_opacity (PyFloat o_out) s = (s, inl TraitError) /\
  set_stroke_weight (PyFloat w_out) s = (s, inl TraitError) /\
  set_stroke_opacity (PyFloat o_in) s =
    (mkPolyline (geodesic s) (stroke_color s) o_in (stroke_weight s)
       (data s) (data_bounds s), inr tt) /\
  set_stroke_weight (PyFloat w_in) s =
    (mkPolyline (geodesic s) (stroke_color s) (stroke_opacity s) w_in
       (data s) (data_bounds s), inr tt).
Proof.
  intros Oo Oi Wo Wi.
  split; [|split; [|split]].
  - apply (set_rejected stroke_opacity_trait).
    exact (Float_validate_outside _ _ _ Oo).
  - apply (set_rejected stroke_weight_trait).
    exact (Float_validate_outside _ _ _ Wo).
  - apply (set_style_accepted stroke_opacity_trait stroke_opacity_style).
    exact (Float_validate_inside _ _ _ Oi).
  - apply (set_style_accepted stroke_weight_trait stroke_weight_style).
    exact (Float_validate_inside _ _ _ Wi).
Qed.

Lemma C8_witness :
  set_stroke_opacity (PyFloat (decimal 15 1)) example_widget
    = (example_widget, inl TraitError) /\
  set_stroke_weight (PyFloat (decimal 5 1)) example_widget
    = (example_widget, inl TraitError) /\
  set_stroke_opacity (PyFloat (decimal 5 1)) example_widget =
    (mkPolyline (geodesic example_widget) (stroke_color example_widget)
       (decimal 5 1) (stroke_weight example_widget)
       (data example_widget) (data_bounds example_widget), inr tt) /\
  set_stroke_weight (PyFloat (of_Z 5)) example_widget =
    (mkPolyline (geodesic example_widget) (stroke_color example_widget)
       (stroke_opacity example_widget) (of_Z 5)
       (data example_widget) (data_bounds example_widget), inr tt).
Proof.
  apply (C8_style_ranges example_widget
           (decimal 15 1) (decimal 5 1) (decimal 5 1) (of_Z 5)).
  - right. vm_compute. reflexivity.
  - split; vm_compute; reflexivity.
  - left. vm_compute. reflexivity.
  - split; vm_compute; reflexivity.
Defined.

(** C9: [data_bounds] does not depend on the order of the committed
    points.  For every valid sequence and every permutation of it, the
    widgets constructed from the two have equal ([==]) [data_bounds], and
    so have any two reachable widgets after the one is assigned the
    sequence and the other the permutation. *)
Theorem C9_bounds_permutation_invariant (P P' : list LatLng) :
  valid_sequence P ->
  Permutation P P' ->
  (exists e e',
      Polyline_new (data_only P) = inr e /\
      Polyline_new (data_only P') = inr e' /\
      bounds_eq (data_bounds e) (data_bounds e')) /\
  (forall s s', reachable s -> reachable s' ->
     exists t t',
       set_data P s = (t, inr tt) /\ set_data P' s' = (t', inr tt) /\
       bounds_eq (data_bounds t) (data_bounds t')).
Proof.
  intros V HP. pose proof (valid_sequence_perm P P' HP V) as V'. split.
  - destruct (Polyline_new_valid P V) as (p & rest & E & N).
    destruct (Polyline_new_valid P' V') as (p' & rest' & E' & N').
    eexists _, _. split; [exact N|]. split; [exact N'|]. simpl.
    apply (bounding_box_perm P P'); [exact HP | |].
    + rewrite E. apply box_bounding_box. rewrite <- E. apply V.
    + rewrite E'. apply box_bounding_box. rewrite <- E'. apply V'.
  - intros s s' R R'.
    destruct (set_data_reachable P s R V) as (t & E & _ & B).
    destruct (set_data_reachable P' s' R' V') as (t' & E' & _ & B').
    exists t, t'. split; [exact E|]. split; [exact E'|].
    now apply (bounding_box_perm P P').
Qed.

Lemma C9_witness :
  (exists e e',
      Polyline_new (data_only capitals) = inr e /\
      Polyline_new (data_only (rev capitals)) = inr e' /\
      bounds_eq (data_bounds e) (data_bounds e')) /\
  (forall s s', reachable s -> reachable s' ->
     exists t t',
       set_data capitals s = (t, inr tt) /\
       set_data (rev capitals) s' = (t', inr tt) /\
       bounds_eq (data_bounds t) (data_bounds t')).
Proof.
  apply (C9_bounds_permutation_invariant capitals (rev capitals)).
  - split; [simpl; lia | in_range_by_computation].
  - apply Permutation_rev.
Defined.

(** C10: after every successful assignment of [data] to a reachable
    widget, [data_bounds] is a list of two pairs whose first pair is below
    the second componentwise (latitude <= latitude and longitude <=
    longitude); each of the four components is attained ([==]) by the
    corresponding coordinate of some point of the committed sequence; all
    committed points are in range, and so both corners are valid
    coordinate pairs. *)
Theorem C10_bounds_ordered_and_attained (s s' : Polyline) (P : list LatLng) :
  reachable s ->
  set_data P s = (s', inr tt) ->
  exists min_lat min_lng max_lat max_lng,
    data_bounds s' = [(min_lat, min_lng); (max_lat, max_lng)] /\
    le min_lat max_lat /\ le min_lng max_lng /\
    (exists p, In p (data s') /\ feq (lat p) min_lat) /\
    (exists p, In p (data s') /\ feq (lng p) min_lng) /\
    (exists p, In p (data s') /\ feq (lat p) max_lat) /\
    (exists p, In p (data s') /\ feq (lng p) max_lng) /\
    Forall in_range (data s') /\
    is_valid_point (min_lat, min_lng) = true /\
    is_valid_point (max_lat, max_lng) = true.
Proof.
  intros R E.
  destruct (set_data_cases P s) as [[e E']|[Hlen Hv]]; [congruence|].
  assert (V : valid_sequence P).
  { split; [assumption | now apply validate_points_ok]. }
  destruct (set_data_reachable P s R V) as (t & Et & D & B).
  rewrite E in Et. injection Et as <-.
  assert (NE : P <> []) by (destruct P; [simpl in Hlen; lia | discriminate]).
  destruct (bounding_box_corners P _ NE B)
    as (a1 & a2 & c1 & c2 & Hb & L1 & L2 & A1 & A2 & A3 & A4).
  exists a1, a2, c1, c2. rewrite D.
  split; [exact Hb|]. split; [exact L1|]. split; [exact L2|].
  split; [exact A1|]. split; [exact A2|]. split; [exact A3|].
  split; [exact A4|]. split; [apply V|].
  split; eapply feq_valid_corner; try apply V; assumption.
Qed.

Lemma C10_witness :
  exists min_lat min_lng max_lat max_lng,
    data_bounds (fst (set_data corners example_widget))
      = [(min_lat, min_lng); (max_lat, max_lng)] /\
    le min_lat max_lat /\ le min_lng max_lng /\
    (exists p, In p (data (fst (set_data corners example_widget))) /\
               feq (lat p) min_lat) /\
    (exists p, In p (data (fst (set_data corners example_widget))) /\
               feq (lng p) min_lng) /\
    (exists p, In p (data (fst (set_data corners example_widget))) /\
               feq (lat p) max_lat) /\
    (exists p, In p (data (fst (set_data corners example_widget))) /\
               feq (lng p) max_lng) /\
    Forall in_range (data (fst (set_data corners example_widget))) /\
    is_valid_point (min_lat, min_lng) = true /\
    is_valid_point (max_lat, max_lng) = true.
Proof.
  apply (C10_bounds_ordered_and_attained example_widget
           (fst (set_data corners example_widget)) corners).
  - apply (reach_new (data_only capitals)). vm_compute. reflexivity.
  - vm_compute. reflexivity.
Defined.

(** The equality of C5, C9 and C10 is Python's [==] because the built-ins
    keep the first of several equal extrema: of the sequences
    [(0.0, 0.0), (-0.0, 0.0)] and [(-0.0, 0.0), (0.0, 0.0)] the first has
    the bounds [[(0.0, 0.0), (0.0, 0.0)]] and the second
    [[(-0.0, 0.0), (-0.0, 0.0)]], which are [==] and differ in the sign
    of a zero only. *)
Remark bounds_of_the_two_zeros :
  let P := [mkLatLng (S754_zero false) (S754_zero false);
            mkLatLng (S754_zero true) (S754_zero false)] in
  exists e e',
    Polyline_new (data_only P) = inr e /\
    Polyline_new (data_only (rev P)) = inr e' /\
    data_bounds e = [(S754_zero false, S754_zero false);
                     (S754_zero false, S754_zero false)] /\
    data_bounds e' = [(S754_zero true, S754_zero false);
                      (S754_zero true, S754_zero false)] /\
    bounds_eq (data_bounds e) (data_bounds e').
Proof.
  eexists _, _. split; [vm_compute; reflexivity|].
  split; [vm_compute; reflexivity|].
  repeat apply conj; vm_compute; reflexivity.
Qed.

(** Where [==] holds between two floats they are the same float, or both
    are zeros. *)
Remark bounds_eq_pair a b c d :
  pair_eqb (a, b) (c, d) = true ->
  (a = c \/ (is_zero a = true /\ is_zero c = true)) /\
  (b = d \/ (is_zero b = true /\ is_zero d = true)).
Proof.
  unfold pair_eqb; simpl. intros H. apply andb_true_iff in H as [H1 H2].
  split; now apply feq_inv.
Qed.

(** ** Further properties of the code *)


Lemma list_eqb_refl v :
  Forall in_range v -> list_eqb LatLng_eqb v v = true.
Proof.
  induction 1 as [|p v Hp Hv IH]; [reflexivity|].
  destruct (in_range_number p Hp) as [N1 N2].
  change (list_eqb LatLng_eqb (p :: v) (p :: v))
    with (LatLng_eqb p p && list_eqb LatLng_eqb v v).
  rewrite IH. unfold LatLng_eqb.
  rewrite (feq_refl _ N1), (feq_refl _ N2). reflexivity.
Qed.


(** X2: assigning again the sequence that an assignment has just committed
    changes nothing: the second assignment returns and every trait value,
    [data_bounds] included, is as the first left it. *)
Theorem X2_set_data_twice (v : list LatLng) (s s' : Polyline) :
  set_data v s = (s', inr tt) ->
  set_data v s' = (s', inr tt).
Proof.
  intros E.
  destruct (set_data_cases v s) as [[e E']|[Hlen Hv]]; [congruence|].
  destruct (set_data_valid v s Hlen Hv) as (p & rest & -> & R).
  rewrite E in R.
  destruct (set_data_valid (p :: rest) s' Hlen Hv) as (p' & rest' & Hp & R').
  injection Hp as <- <-. rewrite R'.
  apply validate_points_ok in Hv.
  assert (D : data s' = p :: rest).
  { injection R as ->.
    destruct (list_eqb LatLng_eqb (data s) (p :: rest)); reflexivity. }
  rewrite D, (list_eqb_refl _ Hv).
  f_equal. injection R as ->.
  destruct (list_eqb LatLng_eqb (data s) (p :: rest)); reflexivity.
Qed.

Lemma X2_witness :
  set_data corners (fst (set_data corners example_widget))
  = (fst (set_data corners example_widget), inr tt).
Proof.
  apply (X2_set_data_twice corners example_widget).
  vm_compute. reflexivity.
Defined.

Lemma reachable_shape s :
  reachable s ->
  (data s = [] -> data_bounds s = []) /\
  (data s <> [] -> (2 <= List.length (data s))%nat).
Proof.
  induction 1 as [kw s H|v s R IH|v s R IH|v s R IH|v s R IH|v s R IH].
  - apply Polyline_new_inv in H. destruct (kw_data kw) as [v|].
    + destruct H as (Hlen & _ & -> & p & rest & -> & _).
      split; [discriminate | intros _; exact Hlen].
    + destruct H as [-> ->]. split; [reflexivity | congruence].
  - destruct (set_data_cases v s) as [[e E]|[Hlen Hv]].
    + now rewrite E.
    + destruct (set_data_valid v s Hlen Hv) as (p & rest & -> & E).
      rewrite E. simpl fst.
      destruct (list_eqb LatLng_eqb (data s) (p :: rest));
        (split; [discriminate | intros _; exact Hlen]).
  - destruct (set_keeps_data geodesic_trait geodesic_style v s) as [D B].
    unfold set_geodesic. now rewrite D, B.
  - destruct (set_keeps_data stroke_color_trait stroke_color_style v s) as [D B].
    unfold set_stroke_color. now rewrite D, B.
  - destruct (set_keeps_data stroke_opacity_trait stroke_opacity_style v s)
      as [D B].
    unfold set_stroke_opacity. now rewrite D, B.
  - destruct (set_keeps_data stroke_weight_trait stroke_weight_style v s)
      as [D B].
    unfold set_stroke_weight. now rewrite D, B.
Qed.

(** X3: the class invariant.  Every widget obtained from the constructor
    and any assignments to [data] and to the style attributes, failed ones
    included, either has the empty defaults for [data] and [data_bounds]
    or holds a valid PointSequence (at least two points, all in range)
    together with its bounding box. *)
Theorem X3_reachable_invariant (s : Polyline) :
  reachable s -> invariant s.
Proof.
  intros R. destruct (reachable_consistent s R) as [Hr Hb].
  destruct (reachable_shape s R) as [H0 H2].
  unfold invariant. destruct (data s) as [|p rest] eqn:D.
  - left. split; [reflexivity | now apply H0].
  - right. rewrite <- D in *. split.
    + split; [apply H2; rewrite D; discriminate | assumption].
    + destruct Hb as [Hb|Hb]; [rewrite D in Hb; discriminate | assumption].
Qed.

Lemma X3_witness : invariant (fst (set_data corners example_widget)).
Proof.
  apply X3_reachable_invariant.
  apply reach_data. apply (reach_new (data_only capitals)).
  vm_compute. reflexivity.
Defined.

(** X4: an assignment to a style attribute, accepted or rejected, never
    touches the committed sequence or its bounds: [data] and [data_bounds]
    are the same before and after an assignment to [geodesic],
    [stroke_color], [stroke_opacity] or [stroke_weight]. *)
Theorem X4_style_assignments_keep_data (s : Polyline)
    (g : bool) (c : string) (o w : pynum) :
  (data (fst (set_geodesic g s)) = data s /\
   data_bounds (fst (set_geodesic g s)) = data_bounds s) /\
  (data (fst (set_stroke_color c s)) = data s /\
   data_bounds (fst (set_stroke_color c s)) = data_bounds s) /\
  (data (fst (set_stroke_opacity o s)) = data s /\
   data_bounds (fst (set_stroke_opacity o s)) = data_bounds s) /\
  (data (fst (set_stroke_weight w s)) = data s /\
   data_bounds (fst (set_stroke_weight w s)) = data_bounds s).
Proof.
  split; [|split; [|split]].
  - apply (set_keeps_data geodesic_trait geodesic_style).
  - apply (set_keeps_data stroke_color_trait stroke_color_style).
  - apply (set_keeps_data stroke_opacity_trait stroke_opacity_style).
  - apply (set_keeps_data stroke_weight_trait stroke_weight_style).
Qed.

Lemma release_data_record g c o w v b :
  release data_trait true (mkPolyline g c o w v b) =
  match validate_points v with
  | inl e => (mkPolyline g c o w v b, inl e)
  | inr _ => (mkPolyline g c o w v b, inr tt)
  end.
Proof.
  unfold release, bind, gets, modify. cbn [cross_validate trait_get data_trait data].
  unfold _validate_data, bind, lift, ret.
  destruct (validate_points v) as [e|[]]; reflexivity.
Qed.

Lemma release_geodesic_record ch g c o w v b :
  release geodesic_trait ch (mkPolyline g c o w v b)
  = (mkPolyline g c o w v b, inr tt).
Proof. destruct ch; reflexivity. Qed.

Lemma release_stroke_color_record ch g c o w v b :
  release stroke_color_trait ch (mkPolyline g c o w v b)
  = (mkPolyline g c o w v b, inr tt).
Proof. destruct ch; reflexivity. Qed.

Lemma release_stroke_opacity_record ch g c o w v b :
  release stroke_opacity_trait ch (mkPolyline g c o w v b)
  = (mkPolyline g c o w v b, inr tt).
Proof. destruct ch; reflexivity. Qed.

Lemma release_stroke_weight_record ch g c o w v b :
  release stroke_weight_trait ch (mkPolyline g c o w v b)
  = (mkPolyline g c o w v b, inr tt).
Proof. destruct ch; reflexivity. Qed.

Lemma deliver_style {I A} (t : TraitType I A) (St : style_trait t) ch s :
  deliver t ch s = (s, inr tt).
Proof.
  destruct St as (_ & Ho & _). destruct ch; [|reflexivity].
  unfold deliver, bind, gets. now rewrite Ho.
Qed.

Lemma deliver_data_record g c o w p rest b :
  deliver data_trait true (mkPolyline g c o w (p :: rest) b)
  = (mkPolyline g c o w (p :: rest) (box p rest), inr tt).
Proof.
  unfold deliver, bind, gets. cbn [trait_get observer data_trait data].
  now rewrite calc_bounds_cons.
Qed.

(** The constructor on all five keyword arguments, once the type checks of
    the sequence and of the two floats have passed. *)
Lemma Polyline_new_checked p rest g c po pw o w :
  (2 <= List.length (p :: rest))%nat ->
  Float_validate (of_Z 0) (of_Z 1) po = inr o ->
  Float_validate (of_Z 1) (of_Z 5) pw = inr w ->
  Polyline_new (mkKwargs (Some (p :: rest)) (Some g) (Some c) (Some po) (Some pw))
  = match validate_points (p :: rest) with
    | inl e => inl e
    | inr _ => inr (mkPolyline g c o w (p :: rest) (box p rest))
    end.
Proof.
  intros Hlen Ho Hw.
  unfold Polyline_new, HasTraits_init.
  cbn [kw_data kw_geodesic kw_stroke_color kw_stroke_opacity kw_stroke_weight
       set_held_opt].
  unfold set_held, bind, lift, gets, modify, ret.
  cbn [validate cross_validate trait_get trait_put trait_eqb observer
       data_trait geodesic_trait stroke_color_trait stroke_opacity_trait
       stroke_weight_trait].
  unfold List_validate. apply Nat.ltb_ge in Hlen. rewrite Hlen.
  unfold ColorAlpha_validate. rewrite Ho, Hw.
  cbn [defaults data geodesic stroke_color stroke_opacity stroke_weight
       data_bounds list_eqb negb].
  rewrite release_data_record.
  destruct (validate_points (p :: rest)) as [e|[]]; [reflexivity|].
  rewrite release_geodesic_record, release_stroke_color_record,
    release_stroke_opacity_record, release_stroke_weight_record.
  rewrite deliver_data_record.
  rewrite (deliver_style geodesic_trait geodesic_style).
  rewrite (deliver_style stroke_color_trait stroke_color_style).
  rewrite (deliver_style stroke_opacity_trait stroke_opacity_style).
  rewrite (deliver_style stroke_weight_trait stroke_weight_style).
  reflexivity.
Qed.

Lemma Polyline_new_short kw v :
  kw_data kw = Some v -> (List.length v < 2)%nat ->
  Polyline_new kw = inl TraitError.
Proof.
  intros K H. unfold Polyline_new, HasTraits_init. rewrite K.
  cbn [set_held_opt].
  unfold set_held at 1. unfold bind at 1 2. unfold lift. simpl validate.
  unfold List_validate. apply Nat.ltb_lt in H. now rewrite H.
Qed.

Lemma set_data_bounds_run b s :
  set_data_bounds b s = (put_data_bounds b s, inr tt).
Proof.
  unfold set_data_bounds, set, bind, lift, gets, modify, ret.
  cbn [validate cross_validate trait_get trait_put trait_eqb observer
       data_bounds_trait].
  unfold List_validate, no_cross_validate, no_observer, ret.
  cbn [Nat.ltb Nat.leb].
  destruct (list_eqb pair_eqb (data_bounds s) b); reflexivity.
Qed.

(** X5: the observer repairs [data_bounds] from any state.  Whatever the
    trait values are, even if [data_bounds] had been overwritten, assigning
    a valid sequence that is not [==] to the current [data] returns,
    commits the sequence, leaves the style attributes alone, and makes
    [data_bounds] the bounding box of the sequence. *)
Theorem X5_changed_data_recomputes_bounds (s : Polyline) (P : list LatLng) :
  valid_sequence P ->
  list_eqb LatLng_eqb (data s) P = false ->
  exists s',
    set_data P s = (s', inr tt) /\ data s' = P /\ same_style s s' /\
    bounding_box P (data_bounds s').
Proof.
  intros V Q. destruct (valid_sequence_checks P V) as [Hlen Hv].
  destruct (set_data_valid P s Hlen Hv) as (p & rest & -> & E).
  rewrite Q in E. eexists. split; [exact E|].
  split; [reflexivity|]. split; [repeat apply conj; reflexivity|].
  apply box_bounding_box, V.
Qed.

Lemma X5_witness :
  exists s',
    set_data corners (fst (set_data_bounds [] example_widget)) = (s', inr tt) /\
    data s' = corners /\
    same_style (fst (set_data_bounds [] example_widget)) s' /\
    bounding_box corners (data_bounds s').
Proof.
  apply (X5_changed_data_recomputes_bounds
           (fst (set_data_bounds [] example_widget)) corners).
  - split; [simpl; lia | in_range_by_computation].
  - vm_compute. reflexivity.
Defined.

(** X6: the observer is skipped when the assigned sequence is [==] to the
    current one, so an overwritten [data_bounds] stays.  After
    [data_bounds] is assigned any list [b], which always succeeds,
    assigning to [data] a valid sequence [==] to the committed one returns
    and [data_bounds] is still [b], whether or not [b] bounds anything. *)
Theorem X6_equal_data_keeps_overwritten_bounds
    (s : Polyline) (b : list (float * float)) (P : list LatLng) :
  valid_sequence P ->
  list_eqb LatLng_eqb (data s) P = true ->
  exists s1 s2,
    set_data_bounds b s = (s1, inr tt) /\
    set_data P s1 = (s2, inr tt) /\
    data s2 = P /\ data_bounds s2 = b.
Proof.
  intros V Q. destruct (valid_sequence_checks P V) as [Hlen Hv].
  exists (put_data_bounds b s).
  destruct (set_data_valid P (put_data_bounds b s) Hlen Hv)
    as (p & rest & -> & E).
  change (data (put_data_bounds b s)) with (data s) in E. rewrite Q in E.
  eexists. split; [apply set_data_bounds_run|].
  split; [exact E|]. split; reflexivity.
Qed.

Lemma X6_witness :
  exists s1 s2,
    set_data_bounds [] example_widget = (s1, inr tt) /\
    set_data capitals s1 = (s2, inr tt) /\
    data s2 = capitals /\ data_bounds s2 = [].
Proof.
  apply (X6_equal_data_keeps_overwritten_bounds example_widget [] capitals).
  - split; [simpl; lia | in_range_by_computation].
  - vm_compute. reflexivity.
Defined.

Lemma default_opacity_checked :
  Float_validate (of_Z 0) (of_Z 1) (PyFloat (decimal 10 1)) = inr (decimal 10 1).
Proof. vm_compute. reflexivity. Qed.

Lemma default_weight_checked :
  Float_validate (of_Z 1) (of_Z 5) (PyInt 2) = inr (of_Z 2).
Proof. vm_compute. reflexivity. Qed.

(** X7: what the construction helper returns.  For points that normalize
    to a valid PointSequence, each style argument either left out or given,
    an opacity given as a float in [0, 1] and a weight given as a float in
    [1, 5], [polyline_layer] returns the widget whose [data] is the
    normalized sequence in the given order, whose [data_bounds] is the
    value [_calc_bounds] stores for it, and whose style attributes are the
    given arguments, the defaults True, "#FF0000", 1.0 and 2.0 standing in
    for those left out. *)
Theorem X7_polyline_layer_result (points : list (float * float))
    (g : option bool) (c : option string) (o w : option float) :
  valid_sequence (locations_to_latlng points) ->
  (forall v, o = Some v -> inside (of_Z 0) (of_Z 1) v) ->
  (forall v, w = Some v -> inside (of_Z 1) (of_Z 5) v) ->
  exists p rest,
    locations_to_latlng points = p :: rest /\
    polyline_layer points g c (option_map PyFloat o) (option_map PyFloat w)
    = inr (mkPolyline
             (match g with Some v => v | None => true end)
             (match c with Some v => v | None => "#FF0000"%string end)
             (match o with Some v => v | None => decimal 10 1 end)
             (match w with Some v => v | None => of_Z 2 end)
             (p :: rest) (box p rest)).
Proof.
  intros V Ho Hw. destruct (valid_sequence_checks _ V) as [Hlen Hv].
  destruct (locations_to_latlng points) as [|p rest] eqn:E;
    [simpl in Hlen; lia|].
  exists p, rest. split; [reflexivity|].
  unfold polyline_layer, _polyline_options. rewrite E.
  assert (Co : Float_validate (of_Z 0) (of_Z 1)
                 match option_map PyFloat o with
                 | Some v => v
                 | None => PyFloat (decimal 10 1)
                 end
               = inr match o with Some v => v | None => decimal 10 1 end).
  { destruct o as [v|]; [|exact default_opacity_checked].
    apply Float_validate_inside, Ho. reflexivity. }
  assert (Cw : Float_validate (of_Z 1) (of_Z 5)
                 match option_map PyFloat w with
                 | Some v => v
                 | None => PyInt 2
                 end
               = inr match w with Some v => v | None => of_Z 2 end).
  { destruct w as [v|]; [|exact default_weight_checked].
    apply Float_validate_inside, Hw. reflexivity. }
  rewrite (Polyline_new_checked p rest _ _ _ _ _ _ Hlen Co Cw), Hv.
  reflexivity.
Qed.

Lemma X7_witness :
  exists p rest,
    locations_to_latlng swiss_points = p :: rest /\
    polyline_layer swiss_points (Some false) None
      (option_map PyFloat (Some (decimal 5 1))) (option_map PyFloat None)
    = inr (mkPolyline false "#FF0000"%string (decimal 5 1) (of_Z 2)
             (p :: rest) (box p rest)).
Proof.
  apply (X7_polyline_layer_result swiss_points (Some false) None
           (Some (decimal 5 1)) None).
  - split; [simpl; lia | in_range_by_computation].
  - intros v H. injection H as <-. split; vm_compute; reflexivity.
  - intros v H. discriminate H.
Defined.

(** X8: the construction helper on fewer than two points, the empty list
    included, raises [TraitError] whatever the style arguments are, valid
    or not: the length of [data] is checked before anything else. *)
Theorem X8_polyline_layer_too_short (points : list (float * float))
    (g : option bool) (c : option string) (o w : option pynum) :
  (List.length points < 2)%nat ->
  polyline_layer points g c o w = inl TraitError.
Proof.
  intros H. unfold polyline_layer, _polyline_options.
  apply (Polyline_new_short _ (locations_to_latlng points)); [reflexivity|].
  unfold locations_to_latlng. now rewrite length_map.
Qed.

Lemma X8_witness :
  polyline_layer [] None None (Some (PyFloat (of_Z 7))) None = inl TraitError.
Proof.
  apply (X8_polyline_layer_too_short [] None None (Some (PyFloat (of_Z 7))) None).
  simpl. lia.
Defined.

(** X9: the construction helper on at least two points of which one is
    out of range, with style arguments that pass their own checks as in
    X7, raises [InvalidPointException] for the first normalized point
    that is not in range, and returns no widget. *)
Theorem X9_polyline_layer_invalid_point (points : list (float * float))
    (g : option bool) (c : option string) (o w : option float) :
  (2 <= List.length points)%nat ->
  ~ Forall in_range (locations_to_latlng points) ->
  (forall v, o = Some v -> inside (of_Z 0) (of_Z 1) v) ->
  (forall v, w = Some v -> inside (of_Z 1) (of_Z 5) v) ->
  exists before q after,
    locations_to_latlng points = before ++ q :: after /\
    Forall in_range before /\ ~ in_range q /\
    polyline_layer points g c (option_map PyFloat o) (option_map PyFloat w)
    = inl (InvalidPointException q).
Proof.
  intros Hlen Hn Ho Hw.
  assert (Hex : Exists (fun p => is_valid_point (lat p, lng p) = false)
                  (locations_to_latlng points)).
  { apply Exists_exists.
    apply neg_Forall_Exists_neg in Hn.
    - apply Exists_exists in Hn as (p & Hp & Np). exists p.
      split; [assumption|].
      destruct (is_valid_point (lat p, lng p)) eqn:E; [|reflexivity].
      apply is_valid_point_in_range in E. contradiction.
    - intros p. destruct (is_valid_point (lat p, lng p)) eqn:E.
      + left. now apply is_valid_point_in_range.
      + right. intros Hr. apply is_valid_point_in_range in Hr. congruence. }
  destruct (validate_points_first _ Hex) as (before & q & after & E & Hb & Hq & Hv).
  exists before, q, after. split; [exact E|]. split; [exact Hb|]. split.
  { intros Hr. apply is_valid_point_in_range in Hr. congruence. }
  assert (Hlen' : (2 <= List.length (locations_to_latlng points))%nat)
    by (unfold locations_to_latlng; now rewrite length_map).
  unfold polyline_layer, _polyline_options.
  destruct (locations_to_latlng points) as [|p rest] eqn:EP;
    [simpl in Hlen'; lia|].
  assert (Co : Float_validate (of_Z 0) (of_Z 1)
                 match option_map PyFloat o with
                 | Some v => v
                 | None => PyFloat (decimal 10 1)
                 end
               = inr match o with Some v => v | None => decimal 10 1 end).
  { destruct o as [v|]; [|exact default_opacity_checked].
    apply Float_validate_inside, Ho. reflexivity. }
  assert (Cw : Float_validate (of_Z 1) (of_Z 5)
                 match option_map PyFloat w with
                 | Some v => v
                 | None => PyInt 2
                 end
               = inr match w with Some v => v | None => of_Z 2 end).
  { destruct w as [v|]; [|exact default_weight_checked].
    apply Float_validate_inside, Hw. reflexivity. }
  rewrite (Polyline_new_checked p rest _ _ _ _ _ _ Hlen' Co Cw), Hv.
  reflexivity.
Qed.

Lemma X9_witness :
  exists before q after,
    locations_to_latlng [(of_Z 10, of_Z 20); (of_Z 91, of_Z 0)]
      = before ++ q :: after /\
    Forall in_range before /\ ~ in_range q /\
    polyline_layer [(of_Z 10, of_Z 20); (of_Z 91, of_Z 0)] None None
      (option_map PyFloat None) (option_map PyFloat None)
    = inl (InvalidPointException q).
Proof.
  apply (X9_polyline_layer_invalid_point
           [(of_Z 10, of_Z 20); (of_Z 91, of_Z 0)] None None None None).
  - simpl. lia.
  - intros F. inversion F as [|? ? _ F']. inversion F' as [|? ? Hq _].
    destruct Hq as (_ & Hq & _). vm_compute in Hq. discriminate Hq.
  - intros v H. discriminate H.
  - intros v H. discriminate H.
Defined.

Lemma incl_map_In {A B} (f : A -> B) (l l' : list A) x :
  incl l l' -> In x (map f l) -> In x (map f l').
Proof.
  intros Hi Hx. apply in_map_iff in Hx as (a & <- & Ha).
  apply in_map. now apply Hi.
Qed.

(** X10: more points never shrink the box.  If every point of a valid
    sequence occurs in a second valid sequence, then the widget
    constructed from the second has a [data_bounds] whose minimum corner is
    below, and whose maximum corner is above, those of the widget
    constructed from the first, on each axis. *)
Theorem X10_bounds_grow_with_points (P P' : list LatLng) :
  valid_sequence P -> valid_sequence P' -> incl P P' ->
  exists e e',
    Polyline_new (data_only P) = inr e /\
    Polyline_new (data_only P') = inr e' /\
    box_contains (data_bounds e') (data_bounds e).
Proof.
  intros V V' Hi.
  destruct (Polyline_new_valid P V) as (p & rest & E & N).
  destruct (Polyline_new_valid P' V') as (p' & rest' & E' & N').
  eexists _, _. split; [exact N|]. split; [exact N'|].
  destruct V as [_ Hall]. destruct V' as [_ Hall'].
  rewrite E in Hall. rewrite E' in Hall'.
  destruct (in_range_numbers _ Hall) as [Hlat Hlng].
  destruct (in_range_numbers _ Hall') as [Hlat' Hlng'].
  simpl map in Hlat, Hlng, Hlat', Hlng'.
  destruct (min_loop_minimum _ _ Hlat) as [I1 _].
  destruct (min_loop_minimum _ _ Hlng) as [I2 _].
  destruct (max_loop_maximum _ _ Hlat) as [I3 _].
  destruct (max_loop_maximum _ _ Hlng) as [I4 _].
  destruct (min_loop_minimum _ _ Hlat') as [_ L1].
  destruct (min_loop_minimum _ _ Hlng') as [_ L2].
  destruct (max_loop_maximum _ _ Hlat') as [_ L3].
  destruct (max_loop_maximum _ _ Hlng') as [_ L4].
  rewrite Forall_forall in L1, L2, L3, L4.
  rewrite E, E' in Hi.
  change (lat p :: map lat rest) with (map lat (p :: rest)) in I1, I3.
  change (lng p :: map lng rest) with (map lng (p :: rest)) in I2, I4.
  apply (incl_map_In lat _ _ _ Hi) in I1, I3.
  apply (incl_map_In lng _ _ _ Hi) in I2, I4.
  unfold box_contains. simpl data_bounds. unfold box.
  eexists _, _, _, _, _, _, _, _.
  split; [reflexivity|]. split; [reflexivity|].
  split; [exact (L1 _ I1)|]. split; [exact (L2 _ I2)|].
  split; [exact (L3 _ I3) | exact (L4 _ I4)].
Qed.

Lemma X10_witness :
  exists e e',
    Polyline_new (data_only capitals) = inr e /\
    Polyline_new (data_only (capitals ++ corners)) = inr e' /\
    box_contains (data_bounds e') (data_bounds e).
Proof.
  apply (X10_bounds_grow_with_points capitals (capitals ++ corners)).
  - split; [simpl; lia | in_range_by_computation].
  - split; [simpl; lia | in_range_by_computation].
  - apply incl_appl, incl_refl.
Defined.

(** A coordinate that is NaN or an infinity. *)
Lemma not_finite_invalid p :
  is_nan (lat p) = true \/ is_inf (lat p) = true \/
  is_nan (lng p) = true \/ is_inf (lng p) = true ->
  is_valid_point (lat p, lng p) = false.
Proof.
  unfold is_valid_point.
  intros [H|[H|[H|H]]].
  - destruct (lat p); try discriminate H. reflexivity.
  - destruct (lat p) as [|[|]| |]; try discriminate H.
    + reflexivity.
    + change (leb (S754_infinity false) (of_Z 90)) with false.
      rewrite andb_false_r. reflexivity.
  - destruct (lng p); try discriminate H.
    change (leb (of_Z (-180)) S754_nan) with false.
    rewrite andb_false_r. reflexivity.
  - destruct (lng p) as [|[|]| |]; try discriminate H.
    + change (leb (of_Z (-180)) (S754_infinity true)) with false.
      rewrite andb_false_r. reflexivity.
    + change (leb (S754_infinity false) (of_Z 180)) with false.
      rewrite andb_false_r. reflexivity.
Qed.

(** X11: a sequence of at least two points one of whose coordinates is
    NaN or an infinity is rejected like one out of range: the assignment
    to [data] raises [InvalidPointException] for a point of the sequence
    and changes no trait value.  (The range check is the one the spec
    gives for [is_valid_point]: two chained comparisons per coordinate,
    which are false on NaN.) *)
Theorem X11_not_finite_rejected (P : list LatLng) (s : Polyline) :
  (2 <= List.length P)%nat ->
  Exists (fun p => is_nan (lat p) = true \/ is_inf (lat p) = true \/
                   is_nan (lng p) = true \/ is_inf (lng p) = true) P ->
  exists q, In q P /\ ~ in_range q /\
            set_data P s = (s, inl (InvalidPointException q)).
Proof.
  intros Hlen Hex.
  assert (Hex' : Exists (fun p => is_valid_point (lat p, lng p) = false) P).
  { apply Exists_exists in Hex as (p & Hp & Hn). apply Exists_exists.
    exists p. split; [assumption | now apply not_finite_invalid]. }
  destruct (validate_points_first P Hex')
    as (before & q & after & E & _ & Hq & Hv).
  exists q. split; [rewrite E; apply in_elt|]. split.
  - intros Hr. apply is_valid_point_in_range in Hr. congruence.
  - now apply set_data_invalid.
Qed.

Lemma X11_witness :
  exists q,
    In q [mkLatLng (of_Z 10) (of_Z 20); mkLatLng S754_nan (of_Z 0)] /\
    ~ in_range q /\
    set_data [mkLatLng (of_Z 10) (of_Z 20); mkLatLng S754_nan (of_Z 0)]
      example_widget
    = (example_widget, inl (InvalidPointException q)).
Proof.
  apply (X11_not_finite_rejected
           [mkLatLng (of_Z 10) (of_Z 20); mkLatLng S754_nan (of_Z 0)]
           example_widget).
  - simpl. lia.
  - apply Exists_cons_tl, Exists_cons_hd. left. reflexivity.
Defined.

(** X12: the declared ranges of [stroke_opacity] and [stroke_weight] do
    not stop NaN.  The [Float] trait rejects a value below its minimum or
    above its maximum, and NaN is neither: assigning NaN to either
    attribute returns, and the attribute then holds NaN. *)
Theorem X12_nan_passes_style_ranges (s : Polyline) :
  set_stroke_opacity (PyFloat S754_nan) s =
    (mkPolyline (geodesic s) (stroke_color s) S754_nan (stroke_weight s)
       (data s) (data_bounds s), inr tt) /\
  set_stroke_weight (PyFloat S754_nan) s =
    (mkPolyline (geodesic s) (stroke_color s) (stroke_opacity s) S754_nan
       (data s) (data_bounds s), inr tt).
Proof.
  split.
  - apply (set_style_accepted stroke_opacity_trait stroke_opacity_style).
    reflexivity.
  - apply (set_style_accepted stroke_weight_trait stroke_weight_style).
    reflexivity.
Qed.

(** X13: an [int] inside the declared range is accepted and stored as the
    float of the same value: 0 and 1 for [stroke_opacity], 1 to 5 for
    [stroke_weight]; the other trait values do not change. *)
Theorem X13_int_in_range_converted (s : Polyline) (zo zw : Z) :
  0 <= zo <= 1 -> 1 <= zw <= 5 ->
  set_stroke_opacity (PyInt zo) s =
    (mkPolyline (geodesic s) (stroke_color s) (of_Z zo) (stroke_weight s)
       (data s) (data_bounds s), inr tt) /\
  set_stroke_weight (PyInt zw) s =
    (mkPolyline (geodesic s) (stroke_color s) (stroke_opacity s) (of_Z zw)
       (data s) (data_bounds s), inr tt).
Proof.
  intros Ho Hw. split.
  - apply (set_style_accepted stroke_opacity_trait stroke_opacity_style).
    assert (C : zo = 0 \/ zo = 1) by lia.
    destruct C as [->| ->]; vm_compute; reflexivity.
  - apply (set_style_accepted stroke_weight_trait stroke_weight_style).
    assert (C : zw = 1 \/ zw = 2 \/ zw = 3 \/ zw = 4 \/ zw = 5) by lia.
    destruct C as [->|[->|[->|[->| ->]]]]; vm_compute; reflexivity.
Qed.

Lemma X13_witness :
  set_stroke_opacity (PyInt 0) example_widget =
    (mkPolyline (geodesic example_widget) (stroke_color example_widget)
       (of_Z 0) (stroke_weight example_widget)
       (data example_widget) (data_bounds example_widget), inr tt) /\
  set_stroke_weight (PyInt 3) example_widget =
    (mkPolyline (geodesic example_widget) (stroke_color example_widget)
       (stroke_opacity example_widget) (of_Z 3)
       (data example_widget) (data_bounds example_widget), inr tt).
Proof.
  apply (X13_int_in_range_converted example_widget 0 3); lia.
Defined.

(** X14: the box contains the points.  On every reachable widget that
    holds a sequence, [data_bounds] is a list of two corners and every
    committed point lies between them on both axes: its latitude between
    the two latitudes and its longitude between the two longitudes. *)
Theorem X14_points_inside_bounds (s : Polyline) (p : LatLng) :
  reachable s -> In p (data s) ->
  exists min_lat min_lng max_lat max_lng,
    data_bounds s = [(min_lat, min_lng); (max_lat, max_lng)] /\
    le min_lat (lat p) /\ le (lat p) max_lat /\
    le min_lng (lng p) /\ le (lng p) max_lng.
Proof.
  intros R Hp. destruct (reachable_consistent s R) as [_ [D|B]].
  - rewrite D in Hp. destruct Hp.
  - destruct B as (a1 & a2 & c1 & c2 & Hb & [_ L1] & [_ L2] & [_ L3] & [_ L4]).
    rewrite Forall_forall in L1, L2, L3, L4.
    exists a1, a2, c1, c2. split; [exact Hb|].
    pose proof (in_map lat _ _ Hp) as Hlat.
    pose proof (in_map lng _ _ Hp) as Hlng.
    split; [exact (L1 _ Hlat)|]. split; [exact (L3 _ Hlat)|].
    split; [exact (L2 _ Hlng) | exact (L4 _ Hlng)].
Qed.

Lemma X14_witness :
  exists min_lat min_lng max_lat max_lng,
    data_bounds example_widget = [(min_lat, min_lng); (max_lat, max_lng)] /\
    le min_lat (lat (mkLatLng (fst brussels) (snd brussels))) /\
    le (lat (mkLatLng (fst brussels) (snd brussels))) max_lat /\
    le min_lng (lng (mkLatLng (fst brussels) (snd brussels))) /\
    le (lng (mkLatLng (fst brussels) (snd brussels))) max_lng.
Proof.
  apply (X14_points_inside_bounds example_widget
           (mkLatLng (fst brussels) (snd brussels))).
  - apply (reach_new (data_only capitals)). vm_compute. reflexivity.
  - right. left. vm_compute. reflexivity.
Defined.
